(** * bingwallpaper: the catch-up run and its ledger

    A shallow embedding of the three variants of the program that live in
    the repository (bingwallpaper.go, part_001, part_000): the dates it
    compares, the ledger file it reads eight bytes of and prepends lines to
    through the stream editor, the scan of the listing page, and the
    backfill and head passes of [main]. *)

From Stdlib Require Import Ascii String DecimalString.
From Stdlib Require Import ZArith Bool Lia Arith List Sorted.
Import ListNotations.

Local Open Scope Z_scope.
Local Open Scope list_scope.

#[local] Arguments Z.mul : simpl never.
#[local] Arguments Z.add : simpl never.
#[local] Arguments Z.sub : simpl never.
#[local] Arguments Z.div : simpl never.
#[local] Arguments Z.modulo : simpl never.

(** ** Byte strings

    A Go string is a sequence of bytes; so is the content of a file. *)

Definition bytes := list ascii.

Definition B (s : string) : bytes := list_ascii_of_string s.

Definition LF : ascii := ascii_of_nat 10.
Definition NUL : ascii := zero.
Definition backslash : ascii := ascii_of_nat 92.

Definition bytes_eqb (a b : bytes) : bool :=
  if list_eq_dec ascii_dec a b then true else false.

(** ** Calendar days

    Every [time.Time] the program handles is a midnight in UTC: [today] is
    built by [time.Date] from the fields of [now], and the two layouts
    parsed carry no clock and no zone.  Such a value is determined by its
    civil date, which is how it is kept here; [After] and [==] on the Go
    side then agree with the order and equality of civil dates. *)

Module time.

Record Time := Date { Year : Z; Month : Z; Day : Z }.

(** The zero value of [time.Time]: January 1, year 1. *)
Definition zero : Time := Date 1 1 1.

Definition eqb (a b : Time) : bool :=
  (Year a =? Year b) && (Month a =? Month b) && (Day a =? Day b).

Definition IsZero (a : Time) : bool := eqb a zero.

Definition After (a b : Time) : bool :=
  match Year a ?= Year b with
  | Gt => true
  | Lt => false
  | Eq => match Month a ?= Month b with
          | Gt => true
          | Lt => false
          | Eq => Day b <? Day a
          end
  end.

Definition isLeap (y : Z) : bool :=
  (y mod 4 =? 0) && (negb (y mod 100 =? 0) || (y mod 400 =? 0)).

Definition daysIn (m y : Z) : Z :=
  if m =? 2 then (if isLeap y then 29 else 28)
  else if (m =? 4) || (m =? 6) || (m =? 9) || (m =? 11) then 30
  else 31.

Definition valid (a : Time) : bool :=
  (1 <=? Month a) && (Month a <=? 12) && (1 <=? Day a) && (Day a <=? daysIn (Month a) (Year a)).

(** [a.AddDate(0, 0, -1)] on a valid date. *)
Definition prevDay (a : Time) : Time :=
  if 1 <? Day a then Date (Year a) (Month a) (Day a - 1)
  else if 1 <? Month a then Date (Year a) (Month a - 1) (daysIn (Month a - 1) (Year a))
  else Date (Year a - 1) 12 31.

(** [a.AddDate(0, 0, 1)] on a valid date. *)
Definition nextDay (a : Time) : Time :=
  if Day a <? daysIn (Month a) (Year a) then Date (Year a) (Month a) (Day a + 1)
  else if Month a <? 12 then Date (Year a) (Month a + 1) 1
  else Date (Year a + 1) 1 1.

Fixpoint addDays (n : nat) (a : Time) : Time :=
  match n with
  | O => a
  | S k => nextDay (addDays k a)
  end.

(** *** The layout [20060102] *)

Definition digit (d : Z) : ascii := ascii_of_nat (Z.to_nat (48 + d)).

Definition isDigit (c : ascii) : bool :=
  let n := nat_of_ascii c in (48 <=? n)%nat && (n <=? 57)%nat.

Definition digitVal (c : ascii) : Z := Z.of_nat (nat_of_ascii c) - 48.

Definition two (n : Z) : bytes := [digit (n / 10); digit (n mod 10)].

Definition four (n : Z) : bytes :=
  [digit (n / 1000); digit (n / 100 mod 10); digit (n / 10 mod 10); digit (n mod 10)].

Definition decimal (n : Z) : bytes :=
  B (NilZero.string_of_uint (N.to_uint (Z.to_N n))).

(** [appendInt] of the time package: a sign, then at least [width] digits. *)
Definition appendInt4 (x : Z) : bytes :=
  let u := Z.abs x in
  (if x <? 0 then B "-" else []) ++ (if u <? 10000 then four u else decimal u).

Definition Format (a : Time) : bytes :=
  appendInt4 (Year a) ++ two (Month a) ++ two (Day a).

(** [time.Parse("20060102", s)]: four digits of year, two of month within
    1..12, two of day within the month, and nothing after them. *)
Definition Parse (s : bytes) : option Time :=
  match s with
  | [y1; y2; y3; y4; m1; m2; d1; d2] =>
      if forallb isDigit s then
        let y := 1000 * digitVal y1 + 100 * digitVal y2 + 10 * digitVal y3 + digitVal y4 in
        let m := 10 * digitVal m1 + digitVal m2 in
        let d := 10 * digitVal d1 + digitVal d2 in
        if (1 <=? m) && (m <=? 12) && (1 <=? d) && (d <=? daysIn m y)
        then Some (Date y m d) else None
      else None
  | _ => None
  end.

End time.

(** ** The functions of package [strings] the program calls *)

Module strings.

(** [strings.Replace(s, old, new, -1)] with a one-byte [old]. *)
Fixpoint Replace (s : bytes) (old : ascii) (new : bytes) : bytes :=
  match s with
  | [] => []
  | c :: r => (if Ascii.eqb c old then new else [c]) ++ Replace r old new
  end.

(** [strings.LastIndex(s, c)] with a one-byte [c]; -1 when absent. *)
Fixpoint LastIndex (s : bytes) (c : ascii) : Z :=
  match s with
  | [] => -1
  | x :: r =>
      let i := LastIndex r c in
      if 0 <=? i then i + 1 else if Ascii.eqb x c then 0 else -1
  end.

Fixpoint HasPrefix (s prefix : bytes) : bool :=
  match prefix, s with
  | [], _ => true
  | p :: ps, c :: r => Ascii.eqb p c && HasPrefix r ps
  | _ :: _, [] => false
  end.

(** [strings.Index(s, sep)] with a non-empty [sep]; -1 when absent. *)
Fixpoint Index (s sep : bytes) : Z :=
  match s with
  | [] => -1
  | _ :: r =>
      if HasPrefix s sep then 0
      else let i := Index r sep in if 0 <=? i then i + 1 else -1
  end.

(** [s[:i]] and [s[i:]] for an index within the string. *)
Definition upto (s : bytes) (i : Z) : bytes := firstn (Z.to_nat i) s.
Definition from (s : bytes) (i : Z) : bytes := skipn (Z.to_nat i) s.

Fixpoint dropWhile (f : ascii -> bool) (s : bytes) : bytes :=
  match s with
  | [] => []
  | c :: r => if f c then dropWhile f r else s
  end.

Definition trimFunc (f : ascii -> bool) (s : bytes) : bytes :=
  rev (dropWhile f (rev (dropWhile f s))).

(** [strings.Trim(s, " ")]. *)
Definition TrimBlank (s : bytes) : bytes := trimFunc (Ascii.eqb " ") s.

(** The white space of [strings.TrimSpace] within ASCII: tab, line feed,
    vertical tab, form feed, carriage return and space. *)
Definition isSpace (c : ascii) : bool :=
  let n := nat_of_ascii c in ((9 <=? n)%nat && (n <=? 13)%nat) || (n =? 32)%nat.

Definition TrimSpace (s : bytes) : bytes := trimFunc isSpace s.

(** [strings.Split(s, sep)[0]]: the text before the first [sep], all of
    [s] without one. *)
Definition SplitHead (s sep : bytes) : bytes :=
  let i := Index s sep in if 0 <=? i then upto s i else s.

(** What follows the first blank, if there is one. *)
Fixpoint afterBlank (s : bytes) : option bytes :=
  match s with
  | [] => None
  | c :: r => if Ascii.eqb c " " then Some r else afterBlank r
  end.

(** The last element of [strings.SplitN(s, " ", 3)]. *)
Definition SplitN3Last (s : bytes) : bytes :=
  match afterBlank s with
  | None => s
  | Some r => match afterBlank r with
              | None => r
              | Some r2 => r2
              end
  end.

End strings.

(** [bufio.Reader.ReadString(delim)] on a fresh reader: the text up to and
    including the first [delim], or [None] (the error [io.EOF]) without one. *)
Fixpoint ReadString (s : bytes) (delim : ascii) : option bytes :=
  match s with
  | [] => None
  | c :: r => if Ascii.eqb c delim then Some [c]
              else option_map (cons c) (ReadString r delim)
  end.

(** [f.Read(buf)] on a freshly opened file with [buf] of [n] zero bytes:
    the buffer afterwards and the count, or [None] (the error [io.EOF])
    when the file holds nothing. *)
Definition Read (file : bytes) (n : nat) : option (bytes * nat) :=
  match file with
  | [] => None
  | _ => let got := firstn n file in
         Some (got ++ repeat NUL (n - length got), length got)
  end.

(** ** The stream editor

    [logWallpaper] shells out to [sed -i "1s;^;LINE;" wpFile].  The editor
    is not part of the repository; this is its reading of the replacement
    text [LINE] and what the command does to the file. *)

Module sed.

Definition hexVal (c : ascii) : option nat :=
  let n := nat_of_ascii c in
  if ((48 <=? n) && (n <=? 57))%nat then Some (n - 48)%nat
  else if ((97 <=? n) && (n <=? 102))%nat then Some (n - 87)%nat
  else if ((65 <=? n) && (n <=? 70))%nat then Some (n - 55)%nat
  else None.

(** The text a replacement stands for: [\n] is a line feed, [\xHH] the
    byte with that code, a backslash before any other character that
    character, [&] the matched text (empty, for [^]).  A bare delimiter
    [;] closes the command before its end, a bare line feed leaves it
    unterminated, and so does a backslash at its end: the command is then
    refused, [None]. *)
Fixpoint replacement (s : bytes) : option bytes :=
  match s with
  | [] => Some []
  | c :: r =>
      if Ascii.eqb c backslash then
        match r with
        | [] => None
        | e :: r1 =>
            if Ascii.eqb e "n" then option_map (cons LF) (replacement r1)
            else
              match r1 with
              | h :: l :: r3 =>
                  match (if Ascii.eqb e "x" then hexVal h else None), hexVal l with
                  | Some a, Some b =>
                      option_map (cons (ascii_of_nat (16 * a + b))) (replacement r3)
                  | _, _ => option_map (cons e) (replacement r1)
                  end
              | _ => option_map (cons e) (replacement r1)
              end
        end
      else if Ascii.eqb c ";" then None
      else if Ascii.eqb c LF then None
      else if Ascii.eqb c "&" then replacement r
      else option_map (cons c) (replacement r)
  end.

(** [sed -i "1s;^;LINE;" file]: the text is spliced in front of the first
    line; a file without a first line is left as it is.  [None] is a
    non-zero exit status, the file untouched. *)
Definition insertFirst (line : bytes) (file : option bytes) : option bytes :=
  match file, replacement line with
  | Some [], Some _ => Some []
  | Some content, Some text => Some (text ++ content)
  | _, _ => None
  end.

End sed.

(** ** The world outside the process

    What a run cannot decide: the day it runs on, what the remote site
    answers, and which calls into the operating system fail. *)

(** One element of the listing page: the outcome of parsing the text of
    its time element under the remote date layout, and the [href] of its
    first link. *)
Record Thumb := {
  thumb_date : option time.Time;
  thumb_href : option bytes
}.

(** A response body, as the selectors of the program see it. *)
Record Body := {
  thumbs : list Thumb;              (* article.thumb, ul.imglist > li *)
  fl_href : option bytes;           (* a.fl, on the transitional page *)
  detail_date : option time.Time;   (* time[itemprop='date'], parsed *)
  detail_title : bytes;             (* .title *)
  detail_description : bytes;       (* .description *)
  img_src : option bytes;           (* #bing_wallpaper *)
  raw : bytes                       (* the bytes io.Copy writes *)
}.

Inductive HttpResult :=
| TransportError
| Response (StatusCode : nat) (body : Body).

Inductive Syscall :=
| SysMkdir
| SysCreate (path : bytes)
| SysWriteString
| SysOpen
| SysCopy (path : bytes)
| SysStart (name : bytes).

Record World := {
  HOME : bytes;
  today : time.Time;
  Get : bytes -> HttpResult;
  fails : Syscall -> bool
}.

Definition yesterday (w : World) : time.Time := time.prevDay (today w).

Definition imgDir (w : World) : bytes := HOME w ++ B "/Images/bing-wallpapers".
Definition wpFile (w : World) : bytes := imgDir w ++ B "/wallpapers".

Definition baseURL : bytes := B "https://bing.gifposter.com".
Definition startURL : bytes := B "https://bing.gifposter.com/list/new/desc/classic.html".

(** ** The state of a run *)

(** The image directory, and in it the ledger file; the image files are
    not read back and are kept as events only. *)
Inductive Disk :=
| NoDir
| Dir (ledger : option bytes).

Inductive Event :=
| Mkdir (path : bytes)
| HttpGet (url : bytes)
| Create (path : bytes)
| Exec (name : bytes) (args : list bytes)
| LogPrintf (date : bytes).

Inductive Failure :=
| ErrSyscall (c : Syscall)
| ErrEOF
| ErrParse
| ErrGet (url : bytes)
| ErrStatus (url : bytes) (code : nat)
| ErrNoThumbs
| ErrNoHref
| ErrNoSrc (url : bytes)
| ErrExitStatus
| ErrIndexOutOfRange.

Record State := {
  disk : Disk;
  events : list Event
}.

Inductive Outcome (A : Type) :=
| Return (a : A)
| Exit (code : Z)
| Panic (e : Failure).

Arguments Return {A} a.
Arguments Exit {A} code.
Arguments Panic {A} e.

Definition M (A : Type) : Type := State -> Outcome A * State.

Definition ret {A} (a : A) : M A := fun st => (Return a, st).

Definition bind {A C} (m : M A) (k : A -> M C) : M C :=
  fun st =>
    match m st with
    | (Return a, st') => k a st'
    | (Exit code, st') => (Exit code, st')
    | (Panic e, st') => (Panic e, st')
    end.

Notation "x <- m ;; k" := (bind m (fun x => k))
  (at level 61, m at next level, right associativity).
Notation "m ;; k" := (bind m (fun _ => k))
  (at level 61, right associativity).

Definition panic {A} (e : Failure) : M A := fun st => (Panic e, st).
Definition exit {A} (code : Z) : M A := fun st => (Exit code, st).

Definition emit (e : Event) : M unit :=
  fun st => (Return tt, {| disk := disk st; events := events st ++ [e] |}).

Definition getDisk : M Disk := fun st => (Return (disk st), st).

Definition setDisk (d : Disk) : M unit :=
  fun st => (Return tt, {| disk := d; events := events st |}).

Definition ledgerOf (d : Disk) : option bytes :=
  match d with
  | NoDir => None
  | Dir l => l
  end.

(** A call into the operating system the world may fail. *)
Definition syscall (w : World) (c : Syscall) : M unit :=
  if fails w c then panic (ErrSyscall c) else ret tt.

Fixpoint each {A} (f : A -> M unit) (l : list A) : M unit :=
  match l with
  | [] => ret tt
  | x :: r => f x ;; each f r
  end.

(** ** The program *)

(** The three variants of the program in the repository. *)
Inductive Source :=
| bingwallpaper_go
| part_001
| part_000.

(** [http.Get(url)] followed by the checks on the error and on the status
    code ([getResponse] in part_000, written out at each call in the other
    two). *)
Definition getResponse (w : World) (url : bytes) : M Body :=
  emit (HttpGet url) ;;
  match Get w url with
  | TransportError => panic (ErrGet url)
  | Response code body =>
      if (code =? 200)%nat then ret body else panic (ErrStatus url code)
  end.

(** [http.Get(src)] with the check on the error alone, as the image is
    fetched in bingwallpaper.go and part_001. *)
Definition getUnchecked (w : World) (url : bytes) : M Body :=
  emit (HttpGet url) ;;
  match Get w url with
  | TransportError => panic (ErrGet url)
  | Response _ body => ret body
  end.

(** [os.Create(filepath)] in the image directory: the file is created or
    truncated; the ledger is one of the files there. *)
Definition osCreate (w : World) (filepath : bytes) : M unit :=
  d <- getDisk ;;
  match d with
  | NoDir => panic (ErrSyscall (SysCreate filepath))
  | Dir l =>
      syscall w (SysCreate filepath) ;;
      emit (Create filepath) ;;
      if bytes_eqb filepath (wpFile w) then setDisk (Dir (Some [])) else ret tt
  end.

(** [io.Copy(output, response.Body)]. *)
Definition ioCopy (w : World) (filepath : bytes) (content : bytes) : M unit :=
  syscall w (SysCopy filepath) ;;
  if bytes_eqb filepath (wpFile w) then setDisk (Dir (Some content)) else ret tt.

(** [exec.Command(name, args...).Start()]. *)
Definition start (w : World) (name : bytes) (args : list bytes) : M unit :=
  syscall w (SysStart name) ;;
  emit (Exec name args).

Record Wallpaper := {
  wp_date : time.Time;
  wp_filename : bytes;
  wp_title : bytes;
  wp_description : bytes
}.

Definition copyrightText : bytes := [ascii_of_nat 194; ascii_of_nat 169].
Definition copyrightMisread : bytes :=
  [ascii_of_nat 195; ascii_of_nat 130; ascii_of_nat 194; ascii_of_nat 169].

Definition titleOf (s : Source) (text : bytes) : bytes :=
  match s with
  | bingwallpaper_go =>
      let copyrightIndex := strings.Index text copyrightText in
      if copyrightIndex =? -1 then text
      else strings.TrimBlank (strings.upto text copyrightIndex)
  | part_001 => []
  | part_000 => strings.TrimSpace (strings.SplitHead text copyrightMisread)
  end.

Definition descriptionOf (s : Source) (text : bytes) : bytes :=
  match s with
  | bingwallpaper_go => []
  | _ => text
  end.

(** Download wallpaper from the url. *)
Definition downloadWallpaper (s : Source) (w : World) (url : bytes) : M Wallpaper :=
  page <- match s with
          | part_000 =>
              transitional <- getResponse w url ;;
              match fl_href transitional with
              | None => panic ErrNoHref
              | Some href => getResponse w (baseURL ++ href)
              end
          | _ => getResponse w url
          end ;;
  match detail_date page with
  | None => panic ErrParse
  | Some date =>
      let title := titleOf s (detail_title page) in
      let description := descriptionOf s (detail_description page) in
      match img_src page with
      | None => panic (ErrNoSrc url)
      | Some src0 =>
          let src := match s with
                     | part_000 => src0
                     | _ => baseURL ++ src0
                     end in
          let lastSlashIndex := strings.LastIndex src "/" in
          let filename := strings.from src (lastSlashIndex + 1) in
          let filepath := imgDir w ++ B "/" ++ filename in
          osCreate w filepath ;;
          image <- match s with
                   | part_000 => getResponse w src
                   | _ => getUnchecked w src
                   end ;;
          ioCopy w filepath (raw image) ;;
          ret {| wp_date := date; wp_filename := filename;
                 wp_title := title; wp_description := description |}
      end
  end.

Definition zenityArgs (s : Source) (title description : bytes) : list bytes :=
  match s with
  | bingwallpaper_go => [B "--info"; B "--text"; title]
  | part_001 => [B "--info"; B "--width=600"; B "height=400"; B "--text"; description]
  | part_000 => [B "--info"; B "--width=600"; B "--no-markup"; B "--title"; title;
                 B "--text"; title ++ [LF; LF] ++ description]
  end.

(** Set wallpaper and show message. *)
Definition setWallpaper (s : Source) (w : World) (p : Wallpaper) : M unit :=
  let filepath := imgDir w ++ B "/" ++ wp_filename p in
  start w (B "fbsetbg") [B "-f"; filepath] ;;
  start w (B "zenity") (zenityArgs s (wp_title p) (wp_description p)).

(** The text [logWallpaper] records for a wallpaper. *)
Definition loggedText (s : Source) (p : Wallpaper) : bytes :=
  match s with
  | bingwallpaper_go => wp_title p
  | part_001 => wp_description p
  | part_000 => wp_title p ++ B ".  " ++ wp_description p
  end.

(** Escape some characters for sed. *)
Definition escape (s : Source) (description : bytes) : bytes :=
  match s with
  | bingwallpaper_go => strings.Replace description "'" (B "\x27")
  | part_001 =>
      strings.Replace (strings.Replace description "'" (B "\x27")) ";" (B "\x3b")
  | part_000 =>
      strings.Replace
        (strings.Replace (strings.Replace description "&" (B "\x26")) "'" (B "\x27"))
        ";" (B "\x3b")
  end.

(** The line handed to the editor: it ends in a backslash and an [n]. *)
Definition sedLine (s : Source) (p : Wallpaper) : bytes :=
  time.Format (wp_date p) ++ B " " ++ wp_filename p ++ B " "
    ++ escape s (loggedText s p) ++ B "\n".

Definition sedScript (line : bytes) : bytes := B "1s;^;" ++ line ++ B ";".

(** Check that first line matches original description (part_000). *)
Definition checkFirstLine (w : World) (p : Wallpaper) (description : bytes) : M unit :=
  syscall w SysOpen ;;
  d <- getDisk ;;
  match ledgerOf d with
  | None => panic (ErrSyscall SysOpen)
  | Some content =>
      match ReadString content LF with
      | None => panic ErrEOF
      | Some firstLine =>
          let savedDescription := strings.SplitN3Last firstLine in
          if bytes_eqb (strings.TrimSpace savedDescription) (strings.TrimSpace description)
          then ret tt
          else emit (LogPrintf (time.Format (wp_date p)))
      end
  end.

(** Save record about wallpaper into file.  In bingwallpaper.go and
    part_001 the editor is started and never waited for; its edit is taken
    to be done by the time [logWallpaper] returns, and its exit status is
    not seen.  part_000 runs it to its end and checks the status. *)
Definition logWallpaper (s : Source) (w : World) (p : Wallpaper) : M unit :=
  let line := sedLine s p in
  start w (B "sed") [B "-i"; sedScript line; wpFile w] ;;
  d <- getDisk ;;
  match d with
  | NoDir => match s with
             | part_000 => panic ErrExitStatus
             | _ => ret tt
             end
  | Dir l =>
      match sed.insertFirst line l with
      | Some content => setDisk (Dir (Some content))
      | None => match s with
                | part_000 => panic ErrExitStatus
                | _ => ret tt
                end
      end
  end ;;
  match s with
  | part_000 => checkFirstLine w p (loggedText s p)
  | _ => ret tt
  end.

Definition skipsFuture (s : Source) : bool :=
  match s with
  | bingwallpaper_go => false
  | _ => true
  end.

(** Collect urls until the last date: the callback of [EachWithBreak]
    folded over the thumbs in document order. *)
Fixpoint collectUrls (s : Source) (w : World) (lastDate : time.Time)
    (ts : list Thumb) (urls : list bytes) : Failure + list bytes :=
  match ts with
  | [] => inr urls
  | thumb :: rest =>
      match thumb_date thumb with
      | None => inl ErrParse
      | Some date =>
          if negb (time.After date lastDate) then inr urls
          else if skipsFuture s && time.After date (today w)
          then collectUrls s w lastDate rest urls
          else match thumb_href thumb with
               | None => inl ErrNoHref
               | Some href => collectUrls s w lastDate rest (urls ++ [baseURL ++ href])
               end
      end
  end.

Definition lift {A} (r : Failure + A) : M A :=
  match r with
  | inl e => panic e
  | inr a => ret a
  end.

(** Fetch the last date and, if the last date is today, exit. *)
Definition fetchLastDate (w : World) : M time.Time :=
  d <- getDisk ;;
  match ledgerOf d with
  | None =>
      syscall w (SysCreate (wpFile w)) ;;
      setDisk (Dir (Some [])) ;;
      syscall w SysWriteString ;;
      setDisk (Dir (Some [LF])) ;;
      ret time.zero
  | Some content =>
      syscall w SysOpen ;;
      match Read content 8 with
      | None => panic ErrEOF
      | Some (lastDateBytes, _) =>
          match time.Parse lastDateBytes with
          | None => panic ErrParse
          | Some lastDate =>
              if time.eqb lastDate (today w) then exit 0 else ret lastDate
          end
      end
  end.

(** Range urls from the end until the first: only download and log.  For
    the first url further set wallpaper and output message. *)
Definition processUrls (s : Source) (w : World) (urls : list bytes) : M unit :=
  each (fun url => p <- downloadWallpaper s w url ;; logWallpaper s w p)
       (rev (tl urls)) ;;
  match urls with
  | [] => panic ErrIndexOutOfRange
  | url :: _ =>
      p <- downloadWallpaper s w url ;;
      setWallpaper s w p ;;
      logWallpaper s w p
  end.

Definition listingURL (s : Source) : bytes :=
  match s with
  | part_000 => startURL
  | _ => baseURL
  end.

(** Page with thumbs, the urls collected from it, and the two passes. *)
Definition catchUp (s : Source) (w : World) (lastDate : time.Time) : M unit :=
  page <- getResponse w (listingURL s) ;;
  if (length (thumbs page) =? 0)%nat then panic ErrNoThumbs
  else
    urls <- lift (collectUrls s w lastDate (thumbs page) []) ;;
    match s with
    | bingwallpaper_go => processUrls s w urls
    | _ => if (0 <? length urls)%nat then processUrls s w urls else ret tt
    end.

(** Create directory if not exists. *)
Definition ensureDir (w : World) : M unit :=
  d <- getDisk ;;
  match d with
  | NoDir => syscall w SysMkdir ;; emit (Mkdir (imgDir w)) ;; setDisk (Dir None)
  | Dir _ => ret tt
  end.

(** The baseline of the catch-up: the date read, or yesterday when none
    was read and [lastDate] is still the zero time. *)
Definition baseline (w : World) (lastDate : time.Time) : time.Time :=
  if time.IsZero lastDate then yesterday w else lastDate.

Definition main (s : Source) (w : World) : M unit :=
  ensureDir w ;;
  lastDate <- fetchLastDate w ;;
  catchUp s w (baseline w lastDate).

(** A run from a given disk. *)
Definition run (s : Source) (w : World) (d : Disk) : Outcome unit * State :=
  main s w {| disk := d; events := [] |}.

(** A date as [time.Parse] can return it. *)
Definition wellFormed (a : time.Time) : bool :=
  time.valid a && (0 <=? time.Year a) && (time.Year a <? 10000).

(** ** What a run is observed through *)

(** The Presentation Sink: the background setter and the notifier. *)
Definition isSink (e : Event) : bool :=
  match e with
  | Exec name _ => bytes_eqb name (B "fbsetbg") || bytes_eqb name (B "zenity")
  | _ => false
  end.

Definition isGet (e : Event) : bool :=
  match e with
  | HttpGet _ => true
  | _ => false
  end.

(** The ledger appends: the editor commands issued. *)
Definition isAppend (e : Event) : bool :=
  match e with
  | Exec name _ => bytes_eqb name (B "sed")
  | _ => false
  end.

Definition sinkCalls (evs : list Event) : list Event := filter isSink evs.
Definition networkCalls (evs : list Event) : list Event := filter isGet evs.
Definition appendCalls (evs : list Event) : list Event := filter isAppend evs.

(** Events that are none of the three. *)
Definition quiet (evs : list Event) : Prop :=
  sinkCalls evs = [] /\ appendCalls evs = [] /\ networkCalls evs = [].



(** The baseline a run reads: the first eight bytes of the ledger, parsed. *)
Definition readLastDate (file : bytes) : option time.Time :=
  match Read file 8 with
  | Some (lastDateBytes, _) => time.Parse lastDateBytes
  | None => None
  end.

(** *** The ledger as records

    One record per line: the date in the first eight bytes, a blank, the
    file name, a blank, the description.  Blank lines (the placeholder the
    ledger is created with) are not records. *)

Fixpoint splitLines (s : bytes) : list bytes :=
  match s with
  | [] => [[]]
  | c :: r =>
      if Ascii.eqb c LF then [] :: splitLines r
      else match splitLines r with
           | l :: ls => (c :: l) :: ls
           | [] => [[c]]
           end
  end.

Definition isRecord (line : bytes) : bool :=
  match line with
  | [] => false
  | _ => true
  end.

Definition recordDate (line : bytes) : option time.Time := time.Parse (firstn 8 line).

Definition ledgerDates (file : bytes) : list (option time.Time) :=
  map recordDate (filter isRecord (splitLines file)).

(** Strictly newest-first. *)
Definition descending (ds : list time.Time) : Prop :=
  StronglySorted (fun a b => time.After a b = true) ds.




(** The line a wallpaper is recorded as. *)
Definition recordLine (s : Source) (p : Wallpaper) : bytes :=
  time.Format (wp_date p) ++ B " " ++ wp_filename p ++ B " " ++ loggedText s p ++ [LF].

Definition noLF (l : bytes) : bool := forallb (fun c => negb (Ascii.eqb c LF)) l.

(** *** Text the editor hands back as it was written

    The characters the editor reads specially in a replacement, and for
    each variant the ones [logWallpaper] escapes.  A file name is not
    escaped at all; and the image is created beside the ledger, so it
    must not bear the ledger's name. *)

Definition hazard (c : ascii) : bool :=
  Ascii.eqb c backslash || Ascii.eqb c LF || Ascii.eqb c "&" || Ascii.eqb c ";".

Definition escapes (s : Source) (c : ascii) : bool :=
  match s with
  | bingwallpaper_go => false
  | part_001 => Ascii.eqb c ";"
  | part_000 => Ascii.eqb c "&" || Ascii.eqb c ";"
  end.

Definition plainName (name : bytes) : bool :=
  forallb (fun c => negb (hazard c)) name && negb (bytes_eqb name (B "wallpapers")).

Definition plainText (s : Source) (text : bytes) : bool :=
  forallb (fun c => negb (hazard c) || escapes s c) text.

Definition tame (s : Source) (p : Wallpaper) : bool :=
  wellFormed (wp_date p) && plainName (wp_filename p) && plainText s (loggedText s p).

(** *** The catch-up window

    A candidate of the listing with its date and link in place. *)

Definition DatedItem : Type := time.Time * bytes.

Definition thumbOf (i : DatedItem) : Thumb :=
  {| thumb_date := Some (fst i); thumb_href := Some (snd i) |}.

Definition urlOf (i : DatedItem) : bytes := baseURL ++ snd i.

(** The maximal leading run of items dated strictly after [lastDate]. *)
Fixpoint prefixAfter (lastDate : time.Time) (items : list DatedItem) : list DatedItem :=
  match items with
  | [] => []
  | i :: rest =>
      if time.After (fst i) lastDate then i :: prefixAfter lastDate rest else []
  end.

Definition notFuture (s : Source) (w : World) (i : DatedItem) : bool :=
  negb (skipsFuture s && time.After (fst i) (today w)).

Definition window (s : Source) (w : World) (lastDate : time.Time)
    (items : list DatedItem) : list DatedItem :=
  filter (notFuture s w) (prefixAfter lastDate items).

(** *** The detail resolver on its own *)

Definition blank : State := {| disk := Dir None; events := [] |}.

Definition resolve (s : Source) (w : World) (url : bytes) : Outcome Wallpaper * State :=
  downloadWallpaper s w url blank.

(** *** A listing that continues the ledger

    An entry of the remote site: the link of its listing element and the
    wallpaper its detail page resolves to.  [datedFrom D entries] dates
    the entries, newest first, [D+N], ..., [D+1]. *)





(** *** What is assumed of the remote site

    The listing a run is answered with, and the items the scan picks from
    it: the fold of [collectUrls] with dates and links kept apart. *)

Definition listing (s : Source) (w : World) : list Thumb :=
  match Get w (listingURL s) with
  | Response _ page => thumbs page
  | TransportError => []
  end.

Fixpoint picked (s : Source) (w : World) (lastDate : time.Time)
    (ts : list Thumb) : list DatedItem :=
  match ts with
  | [] => []
  | thumb :: rest =>
      match thumb_date thumb with
      | None => []
      | Some date =>
          if negb (time.After date lastDate) then []
          else if skipsFuture s && time.After date (today w)
          then picked s w lastDate rest
          else match thumb_href thumb with
               | None => []
               | Some href => (date, href) :: picked s w lastDate rest
               end
      end
  end.

(** The detail page of an item is faithful to the listing: resolving it
    leaves the ledger alone, and what it resolves to bears the date the
    listing shows and text and names the editor hands back as written. *)
Definition faithfulItem (s : Source) (w : World) (i : DatedItem) : Prop :=
  disk (snd (resolve s w (urlOf i))) = Dir None
  /\ forall p, fst (resolve s w (urlOf i)) = Return p ->
               wp_date p = fst i /\ tame s p = true.

Definition faithfulThumb (s : Source) (w : World) (t : Thumb) : Prop :=
  forall d h, thumb_date t = Some d -> thumb_href t = Some h -> faithfulItem s w (d, h).

Definition faithful (s : Source) (w : World) : Prop :=
  Forall (faithfulThumb s w) (listing s w).




(** A ledger with the records of [ps] appended to it one after the
    other, the last one on top. *)
Definition grown (s : Source) (ps : list Wallpaper) (file : bytes) : bytes :=
  concat (map (recordLine s) (rev ps)) ++ file.

(** *** Runs one after the other *)

Fixpoint runs (s : Source) (ws : list World) (d : Disk) : Disk :=
  match ws with
  | [] => d
  | w :: rest => runs s rest (disk (snd (run s w d)))
  end.


(** *** Reading a record back *)

Definition noBlank (l : bytes) : bool := forallb (fun c => negb (Ascii.eqb c " ")) l.

(** The description field of the first line after [logWallpaper] has run
    on a ledger: the raw line up to its line feed, cut as the check of
    part_000 cuts it. *)
Definition readBack (s : Source) (w : World) (p : Wallpaper) (file : bytes) : option bytes :=
  match disk (snd (logWallpaper s w p {| disk := Dir (Some file); events := [] |})) with
  | Dir (Some content) => option_map strings.SplitN3Last (ReadString content LF)
  | _ => None
  end.

Definition roundTrips (s : Source) (w : World) (p : Wallpaper) (file : bytes) : Prop :=
  readBack s w p file = Some (loggedText s p ++ [LF]).

Definition hasReserved (text : bytes) : bool :=
  existsb (fun c => Ascii.eqb c "&" || Ascii.eqb c "'" || Ascii.eqb c ";") text.

(** ** A site to run against

    A small remote site for the concrete runs below: a listing, and for
    each day of January 2024 a detail page reached from the listing link
    directly and through the transitional page. *)

Definition jan (n : Z) : time.Time := time.Date 2024 1 n.

Definition photoHref (n : Z) : bytes := B "/photo/" ++ time.two n.
Definition detailHref (n : Z) : bytes := B "/detail/" ++ time.two n.

Definition photoPage (n : Z) : Body :=
  {| thumbs := [];
     fl_href := Some (detailHref n);
     detail_date := Some (jan n);
     detail_title := B "Cats & dogs";
     detail_description := B "It's; here";
     img_src := Some (B "/img/pic" ++ time.two n ++ B ".jpg");
     raw := B "JPEG" |}.

Definition emptyPage : Body :=
  {| thumbs := []; fl_href := None; detail_date := None; detail_title := [];
     detail_description := []; img_src := None; raw := [] |}.

Definition listingPage (ts : list Thumb) : Body :=
  {| thumbs := ts; fl_href := None; detail_date := None; detail_title := [];
     detail_description := []; img_src := None; raw := [] |}.

Fixpoint pageAt (url : bytes) (days : list Z) : Body :=
  match days with
  | [] => emptyPage
  | n :: rest =>
      if bytes_eqb url (baseURL ++ photoHref n) || bytes_eqb url (baseURL ++ detailHref n)
      then photoPage n
      else pageAt url rest
  end.

Definition site (day : time.Time) (ts : list Thumb) : World :=
  {| HOME := B "/home/u";
     today := day;
     Get := fun url =>
       if bytes_eqb url baseURL || bytes_eqb url startURL
       then Response 200 (listingPage ts)
       else Response 200 (pageAt url [12; 13; 14; 15; 16]);
     fails := fun _ => false |}.

(** The same site out of reach. *)
Definition offline (day : time.Time) : World :=
  {| HOME := B "/home/u"; today := day;
     Get := fun _ => TransportError; fails := fun _ => false |}.

Definition thumbOn (n : Z) : Thumb := thumbOf (jan n, photoHref n).

(** What the detail page of a day resolves to in part_000. *)
Definition wallpaperOn (n : Z) : Wallpaper :=
  {| wp_date := jan n;
     wp_filename := B "pic" ++ time.two n ++ B ".jpg";
     wp_title := B "Cats & dogs";
     wp_description := B "It's; here" |}.


Definition ledger13 : bytes := B "20240113 pic13.jpg Older" ++ [LF].
Definition ledger14 : bytes := B "20240114 pic14.jpg Old" ++ [LF] ++ ledger13.

(** Two wallpapers that differ in their descriptions alone: an ampersand
    followed by the four characters an ampersand is escaped to, and two
    ampersands. *)
Definition ampersandAndEscape : Wallpaper :=
  {| wp_date := jan 15; wp_filename := B "f.jpg";
     wp_title := B "a"; wp_description := B "&\x26" |}.

Definition twoAmpersands : Wallpaper :=
  {| wp_date := jan 15; wp_filename := B "f.jpg";
     wp_title := B "a"; wp_description := B "&&" |}.

(* ================================================================== *)
(** * Properties *)

(** ** Dates *)



(** [After] as a proposition over the three fields. *)
Lemma After_spec a b :
  time.After a b = true <->
  (time.Year b < time.Year a
   \/ (time.Year a = time.Year b
       /\ (time.Month b < time.Month a
           \/ (time.Month a = time.Month b /\ time.Day b < time.Day a)))).
Proof.
  unfold time.After.
  destruct (Z.compare_spec (time.Year a) (time.Year b));
    [destruct (Z.compare_spec (time.Month a) (time.Month b)) |..];
    rewrite ?Z.ltb_lt; split; intros; try lia; try discriminate; auto.
Qed.

Lemma After_false a b :
  time.After a b = false <-> ~ time.After a b = true.
Proof. destruct (time.After a b); split; congruence. Qed.


Lemma After_trans a b c :
  time.After a b = true -> time.After b c = true -> time.After a c = true.
Proof. rewrite !After_spec; lia. Qed.

Lemma After_asym a b : time.After a b = true -> time.After b a = false.
Proof. intros H; apply After_false; revert H; rewrite !After_spec; lia. Qed.


Lemma After_trans_le a b c :
  time.After b a = false -> time.After b c = true -> time.After a c = true.
Proof.
  rewrite After_false, !After_spec. intros H1 H2.
  destruct a as [y m d], b as [y' m' d'], c as [y2 m2 d2]; simpl in *; lia.
Qed.

Lemma After_total a b :
  time.After a b = false -> time.After b a = false -> a = b.
Proof.
  rewrite !After_false, !After_spec.
  destruct a as [y m d], b as [y' m' d']; simpl; intros; f_equal; lia.
Qed.

Lemma After_nextDay a : time.After (time.nextDay a) a = true.
Proof.
  apply After_spec. unfold time.nextDay.
  destruct (Z.ltb_spec (time.Day a) (time.daysIn (time.Month a) (time.Year a)));
    [| destruct (Z.ltb_spec (time.Month a) 12)]; simpl; lia.
Qed.


Lemma After_addDays_mono n k a :
  (k < n)%nat -> time.After (time.addDays n a) (time.addDays k a) = true.
Proof.
  induction n as [|n IH]; intros Hk; [lia|].
  destruct (Nat.eq_dec k n) as [->|Hne]; simpl.
  - apply After_nextDay.
  - eapply After_trans; [apply After_nextDay | apply IH; lia].
Qed.

Lemma daysIn_bounds m y : 28 <= time.daysIn m y <= 31.
Proof.
  unfold time.daysIn.
  destruct (m =? 2); [destruct (time.isLeap y); lia|].
  destruct ((m =? 4) || (m =? 6) || (m =? 9) || (m =? 11)); lia.
Qed.


(** *** The layout round trip *)

Lemma digit_cases k : 0 <= k <= 9 ->
  k = 0 \/ k = 1 \/ k = 2 \/ k = 3 \/ k = 4 \/ k = 5 \/ k = 6 \/ k = 7 \/ k = 8 \/ k = 9.
Proof. lia. Qed.

Lemma digit_isDigit k : 0 <= k <= 9 -> time.isDigit (time.digit k) = true.
Proof.
  intros H; destruct (digit_cases k H) as [-> | [-> | [-> | [-> | [-> | [-> | [-> | [-> | [-> | ->]]]]]]]]];
    reflexivity.
Qed.

Lemma digitVal_digit k : 0 <= k <= 9 -> time.digitVal (time.digit k) = k.
Proof.
  intros H; destruct (digit_cases k H) as [-> | [-> | [-> | [-> | [-> | [-> | [-> | [-> | [-> | ->]]]]]]]]];
    reflexivity.
Qed.

Lemma Format_wellFormed a :
  wellFormed a = true ->
  time.Format a = time.four (time.Year a) ++ time.two (time.Month a) ++ time.two (time.Day a).
Proof.
  unfold wellFormed. rewrite !andb_true_iff, Z.leb_le, Z.ltb_lt. intros [[_ H0] H1].
  unfold time.Format, time.appendInt4.
  destruct (Z.ltb_spec (time.Year a) 0); [lia|].
  rewrite Z.abs_eq by lia.
  destruct (Z.ltb_spec (time.Year a) 10000); [reflexivity | lia].
Qed.

Lemma Parse_Format a : wellFormed a = true -> time.Parse (time.Format a) = Some a.
Proof.
  intros Hw. rewrite (Format_wellFormed _ Hw).
  unfold wellFormed in Hw. rewrite !andb_true_iff, Z.leb_le, Z.ltb_lt in Hw.
  destruct Hw as [[Hv H0] H1]. destruct a as [y m d].
  cbn [time.Year time.Month time.Day] in *.
  pose proof Hv as Hv'. unfold time.valid in Hv'.
  cbn [time.Year time.Month time.Day] in Hv'.
  rewrite !andb_true_iff, !Z.leb_le in Hv'. destruct Hv' as [[[Hm1 Hm2] Hd1] Hd2].
  pose proof (daysIn_bounds m y) as Hb.
  unfold time.four, time.two. cbv beta iota delta [app time.Parse forallb].
  rewrite !digit_isDigit by (Z.div_mod_to_equations; lia).
  cbv beta iota zeta delta [andb].
  rewrite !digitVal_digit by (Z.div_mod_to_equations; lia).
  replace (1000 * (y / 1000) + 100 * (y / 100 mod 10) + 10 * (y / 10 mod 10) + y mod 10)
    with y by (Z.div_mod_to_equations; lia).
  replace (10 * (m / 10) + m mod 10) with m by (Z.div_mod_to_equations; lia).
  replace (10 * (d / 10) + d mod 10) with d by (Z.div_mod_to_equations; lia).
  destruct (Z.leb_spec 1 m); [|lia]. destruct (Z.leb_spec m 12); [|lia].
  destruct (Z.leb_spec 1 d); [|lia]. destruct (Z.leb_spec d (time.daysIn m y)); [|lia].
  reflexivity.
Qed.

Lemma Format_length a : wellFormed a = true -> length (time.Format a) = 8%nat.
Proof. intros Hw; rewrite (Format_wellFormed _ Hw); reflexivity. Qed.

(** [time.Parse] returns well-formed dates only. *)
Lemma Parse_wellFormed s a : time.Parse s = Some a -> wellFormed a = true.
Proof.
  unfold time.Parse.
  destruct s as [|y1 [|y2 [|y3 [|y4 [|m1 [|m2 [|d1 [|d2 [|? ?]]]]]]]]]; try discriminate.
  destruct (forallb time.isDigit _) eqn:Hd; [|discriminate].
  match goal with |- (if ?c then _ else _) = _ -> _ => destruct c eqn:Hr end; [|discriminate].
  intros H; injection H as <-.
  cbn [forallb] in Hd. rewrite !andb_true_iff in Hd.
  assert (Hv : forall c, time.isDigit c = true -> 0 <= time.digitVal c <= 9).
  { intros c. unfold time.isDigit, time.digitVal.
    rewrite andb_true_iff, !Nat.leb_le. lia. }
  destruct Hd as (H1 & H2 & H3 & H4 & _).
  apply Hv in H1, H2, H3, H4.
  unfold wellFormed, time.valid. cbn [time.Year time.Month time.Day].
  rewrite Hr. cbn [andb]. apply andb_true_iff. rewrite Z.leb_le, Z.ltb_lt. lia.
Qed.

(** ** Byte strings *)

Lemma bytes_eqb_eq a b : bytes_eqb a b = true <-> a = b.
Proof. unfold bytes_eqb. destruct (list_eq_dec ascii_dec a b); split; congruence. Qed.

Lemma bytes_eqb_refl a : bytes_eqb a a = true.
Proof. apply bytes_eqb_eq; reflexivity. Qed.

Lemma bytes_eqb_neq a b : bytes_eqb a b = false <-> a <> b.
Proof. unfold bytes_eqb. destruct (list_eq_dec ascii_dec a b); split; congruence. Qed.

Lemma Replace_app a b old new :
  strings.Replace (a ++ b) old new = strings.Replace a old new ++ strings.Replace b old new.
Proof.
  induction a as [|c a IH]; simpl; [reflexivity|].
  rewrite IH, app_assoc. reflexivity.
Qed.

Lemma escape_app s a b : escape s (a ++ b) = escape s a ++ escape s b.
Proof. destruct s; unfold escape; rewrite !Replace_app; reflexivity. Qed.

(** ** The editor's reading of what [logWallpaper] writes *)

Lemma replacement_plain c r :
  hazard c = false ->
  sed.replacement (c :: r) = option_map (cons c) (sed.replacement r).
Proof.
  unfold hazard. rewrite !orb_false_iff. intros [[[H1 H2] H3] H4].
  cbn [sed.replacement]. rewrite H1, H2, H3, H4. reflexivity.
Qed.

Lemma replacement_plain_app a r t :
  forallb (fun c => negb (hazard c)) a = true ->
  sed.replacement r = Some t ->
  sed.replacement (a ++ r) = Some (a ++ t).
Proof.
  induction a as [|c a IH]; simpl; intros Ha Hr; [exact Hr|].
  apply andb_true_iff in Ha. destruct Ha as [Hc Ha].
  apply negb_true_iff in Hc.
  change (sed.replacement (c :: a ++ r) = Some (c :: a ++ t)).
  rewrite (replacement_plain c _ Hc), (IH Ha Hr). reflexivity.
Qed.

(** One escaped character reads back as the character. *)
Lemma replacement_escape_one s c r :
  negb (hazard c) || escapes s c = true ->
  sed.replacement (escape s [c] ++ r) = option_map (cons c) (sed.replacement r).
Proof.
  intros Hc.
  destruct (Ascii.eqb c backslash) eqn:E1;
    [apply Ascii.eqb_eq in E1; subst c; destruct s; discriminate Hc|].
  destruct (Ascii.eqb c LF) eqn:E2;
    [apply Ascii.eqb_eq in E2; subst c; destruct s; discriminate Hc|].
  destruct (Ascii.eqb c "&") eqn:E3;
    [apply Ascii.eqb_eq in E3; subst c; destruct s; try discriminate Hc; reflexivity|].
  destruct (Ascii.eqb c ";") eqn:E4;
    [apply Ascii.eqb_eq in E4; subst c; destruct s; try discriminate Hc; reflexivity|].
  destruct (Ascii.eqb c "'") eqn:E5;
    [apply Ascii.eqb_eq in E5; subst c; destruct s; reflexivity|].
  assert (He : escape s [c] = [c]).
  { destruct s; unfold escape;
      repeat (cbn [strings.Replace app]; rewrite ?E3, ?E4, ?E5); reflexivity. }
  rewrite He. apply replacement_plain.
  unfold hazard. rewrite E1, E2, E3, E4. reflexivity.
Qed.

(** The escaped text reads back as the text. *)
Lemma replacement_escape s text r t :
  plainText s text = true ->
  sed.replacement r = Some t ->
  sed.replacement (escape s text ++ r) = Some (text ++ t).
Proof.
  unfold plainText. induction text as [|c text IH]; intros Hp Hr.
  - destruct s; exact Hr.
  - cbn [forallb] in Hp. apply andb_true_iff in Hp. destruct Hp as [Hc Hp].
    change (c :: text) with ([c] ++ text).
    rewrite escape_app, <- !app_assoc.
    rewrite (replacement_escape_one s c _ Hc), (IH Hp Hr). reflexivity.
Qed.

Lemma digit_plain k : 0 <= k <= 9 -> hazard (time.digit k) = false.
Proof.
  intros H; destruct (digit_cases k H) as [-> | [-> | [-> | [-> | [-> | [-> | [-> | [-> | [-> | ->]]]]]]]]];
    reflexivity.
Qed.

Lemma Format_plain a :
  wellFormed a = true -> forallb (fun c => negb (hazard c)) (time.Format a) = true.
Proof.
  intros Hw. rewrite (Format_wellFormed _ Hw).
  unfold wellFormed, time.valid in Hw. rewrite !andb_true_iff, !Z.leb_le, Z.ltb_lt in Hw.
  destruct Hw as [[[[[Hm1 Hm2] Hd1] Hd2] H0] H1].
  pose proof (daysIn_bounds (time.Month a) (time.Year a)).
  unfold time.four, time.two. cbn [app forallb].
  rewrite !digit_plain by (Z.div_mod_to_equations; lia). reflexivity.
Qed.

(** A tame wallpaper is recorded as written. *)
Lemma replacement_sedLine s p :
  tame s p = true -> sed.replacement (sedLine s p) = Some (recordLine s p).
Proof.
  unfold tame, plainName. rewrite !andb_true_iff. intros [[Hd [Hn _]] Ht].
  unfold sedLine, recordLine.
  apply replacement_plain_app; [apply Format_plain; exact Hd|].
  apply (replacement_plain_app (B " ")); [reflexivity|].
  apply replacement_plain_app; [exact Hn|].
  apply (replacement_plain_app (B " ")); [reflexivity|].
  apply replacement_escape; [exact Ht | reflexivity].
Qed.

(** ** The ledger as lines *)




Lemma hazard_noLF l :
  forallb (fun c => negb (hazard c)) l = true -> noLF l = true.
Proof.
  unfold noLF. induction l as [|c l IH]; simpl; [reflexivity|].
  rewrite !andb_true_iff. intros [Hc Hl]. split; [|apply IH; exact Hl].
  unfold hazard in Hc. rewrite !negb_orb, !andb_true_iff in Hc. tauto.
Qed.

Lemma plainText_noLF s l : plainText s l = true -> noLF l = true.
Proof.
  unfold noLF, plainText. induction l as [|c l IH]; simpl; [reflexivity|].
  rewrite !andb_true_iff. intros [Hc Hl]. split; [|apply IH; exact Hl].
  destruct (Ascii.eqb c LF) eqn:E; [|reflexivity].
  apply Ascii.eqb_eq in E. subst c. destruct s; discriminate Hc.
Qed.

Lemma noLF_app a b : noLF (a ++ b) = noLF a && noLF b.
Proof. unfold noLF. apply forallb_app. Qed.

(** The body of a record line: everything but the closing line feed. *)
Lemma recordLine_body s p :
  tame s p = true ->
  exists body,
    recordLine s p = time.Format (wp_date p) ++ body ++ [LF]
    /\ noLF (time.Format (wp_date p) ++ body) = true
    /\ length (time.Format (wp_date p)) = 8%nat.
Proof.
  unfold tame, plainName. rewrite !andb_true_iff. intros [[Hd [Hn _]] Ht].
  exists (B " " ++ wp_filename p ++ B " " ++ loggedText s p). split; [|split].
  - unfold recordLine. rewrite <- !app_assoc. reflexivity.
  - rewrite !noLF_app, (hazard_noLF _ (Format_plain _ Hd)), (hazard_noLF _ Hn),
      (plainText_noLF _ _ Ht). reflexivity.
  - apply Format_length; exact Hd.
Qed.

Lemma firstn_app_exact {A} (a b : list A) n : length a = n -> firstn n (a ++ b) = a.
Proof.
  intros <-. rewrite firstn_app, Nat.sub_diag, firstn_all. simpl. apply app_nil_r.
Qed.


Lemma readLastDate_record s p file :
  tame s p = true -> readLastDate (recordLine s p ++ file) = Some (wp_date p).
Proof.
  intros Ht. destruct (recordLine_body s p Ht) as (body & -> & Hn & Hl).
  assert (Hw : wellFormed (wp_date p) = true).
  { unfold tame in Ht. rewrite !andb_true_iff in Ht. tauto. }
  unfold readLastDate, Read. rewrite <- !app_assoc.
  rewrite (firstn_app_exact _ _ 8 Hl), Hl. cbn [Nat.sub repeat].
  rewrite app_nil_r.
  destruct (time.Format (wp_date p) ++ body ++ [LF] ++ file) eqn:E.
  - destruct (time.Format (wp_date p)); discriminate.
  - apply Parse_Format; exact Hw.
Qed.

(** ** Reading the baseline *)

Lemma Parse_digits s d :
  time.Parse s = Some d -> length s = 8%nat /\ forallb time.isDigit s = true.
Proof.
  unfold time.Parse.
  destruct s as [|y1 [|y2 [|y3 [|y4 [|m1 [|m2 [|d1 [|d2 [|? ?]]]]]]]]]; try discriminate.
  destruct (forallb time.isDigit _); [auto | discriminate].
Qed.

(** A buffer that was not filled does not parse: its last byte is zero. *)
Lemma Parse_padded got k :
  (0 < k)%nat -> time.Parse (got ++ repeat NUL k) = None.
Proof.
  intros Hk. destruct (time.Parse (got ++ repeat NUL k)) eqn:E; [|reflexivity].
  apply Parse_digits in E. destruct E as [_ E].
  rewrite forallb_app, andb_true_iff in E. destruct E as [_ E].
  destruct k; [lia|]. discriminate E.
Qed.

Lemma Read_nonempty file n :
  file <> [] ->
  Read file n = Some (firstn n file ++ repeat NUL (n - length (firstn n file)),
                      length (firstn n file)).
Proof. destruct file; [congruence | reflexivity]. Qed.




(** ** The detail resolver leaves the state alone

    Run from any state, [downloadWallpaper] does what it does on its own,
    as long as the image does not land on the ledger. *)

Ltac run_step :=
  match goal with
  | |- context [match ?x with _ => _ end] =>
      lazymatch x with
      | context [match _ with _ => _ end] => fail
      | _ => destruct x eqn:?
      end
  end.

Lemma download_frame s w url l evs :
  disk (snd (resolve s w url)) = Dir None ->
  downloadWallpaper s w url {| disk := Dir l; events := evs |}
  = (fst (resolve s w url),
     {| disk := Dir l; events := evs ++ events (snd (resolve s w url)) |}).
Proof.
  unfold resolve, blank, downloadWallpaper, getResponse, getUnchecked, osCreate,
    ioCopy, syscall, bind, emit, panic, ret, getDisk, setDisk.
  destruct s; cbn [disk events];
    repeat (run_step; cbn [disk events fst snd]);
    rewrite <- ?app_assoc; cbn [app]; try reflexivity; try discriminate.
Qed.

(** ** The scan of the listing *)

Lemma collectUrls_stop s w lastDate stop tail urls d :
  thumb_date stop = Some d -> time.After d lastDate = false ->
  collectUrls s w lastDate (stop :: tail) urls = inr urls.
Proof. intros Hd Ha. cbn [collectUrls]. rewrite Hd, Ha. reflexivity. Qed.

(** Items dated after the baseline are all scanned; the future ones among
    them are passed over where the variant skips them. *)
Lemma collectUrls_after s w lastDate items tail urls :
  Forall (fun i => time.After (fst i) lastDate = true) items ->
  collectUrls s w lastDate (map thumbOf items ++ tail) urls
  = collectUrls s w lastDate tail (urls ++ map urlOf (filter (notFuture s w) items)).
Proof.
  intros H. revert urls. induction H as [|i items Hi _ IH]; intros urls.
  - simpl. rewrite app_nil_r. reflexivity.
  - cbn [map app collectUrls thumbOf thumb_date thumb_href filter].
    rewrite Hi. cbn [negb]. unfold notFuture at 1.
    destruct (skipsFuture s && time.After (fst i) (today w)); cbn [negb].
    + apply IH.
    + rewrite IH. cbn [map]. rewrite <- app_assoc. reflexivity.
Qed.

Lemma prefixAfter_split lastDate items :
  exists rest,
    items = prefixAfter lastDate items ++ rest
    /\ Forall (fun i => time.After (fst i) lastDate = true) (prefixAfter lastDate items)
    /\ match rest with
       | [] => True
       | i :: _ => time.After (fst i) lastDate = false
       end.
Proof.
  induction items as [|i items (rest & IH1 & IH2 & IH3)].
  - exists []. simpl. auto.
  - cbn [prefixAfter]. destruct (time.After (fst i) lastDate) eqn:E.
    + exists rest. cbn [app]. rewrite <- IH1. auto.
    + exists (i :: items). simpl. auto.
Qed.

Lemma collectUrls_window s w lastDate items :
  collectUrls s w lastDate (map thumbOf items) []
  = inr (map urlOf (window s w lastDate items)).
Proof.
  destruct (prefixAfter_split lastDate items) as (rest & Hs & Ha & Hr).
  rewrite Hs at 1. rewrite map_app, (collectUrls_after _ _ _ _ _ _ Ha). cbn [app].
  destruct rest as [|i rest]; [reflexivity|].
  cbn [map]. apply (collectUrls_stop s w lastDate (thumbOf i) _ _ (fst i)); [reflexivity | exact Hr].
Qed.

Lemma collectUrls_cut s w lastDate items stop tail d :
  Forall (fun i => time.After (fst i) lastDate = true) items ->
  thumb_date stop = Some d -> time.After d lastDate = false ->
  collectUrls s w lastDate (map thumbOf items ++ stop :: tail) []
  = inr (map urlOf (filter (notFuture s w) items)).
Proof.
  intros Ha Hd Hs. rewrite (collectUrls_after _ _ _ _ _ _ Ha). cbn [app].
  exact (collectUrls_stop s w lastDate _ _ _ d Hd Hs).
Qed.

(** ** The sink and the ledger append *)

Lemma setWallpaper_disk s w p st : disk (snd (setWallpaper s w p st)) = disk st.
Proof.
  unfold setWallpaper, start, syscall, bind, emit, panic, ret.
  repeat (run_step; cbn [disk events fst snd]); reflexivity.
Qed.


Lemma insertFirst_tame s p l :
  tame s p = true ->
  sed.insertFirst (sedLine s p) l
  = match l with
    | None => None
    | Some [] => Some []
    | Some file => Some (recordLine s p ++ file)
    end.
Proof.
  intros Ht. unfold sed.insertFirst. rewrite (replacement_sedLine s p Ht).
  destruct l as [[|c file]|]; reflexivity.
Qed.

(** Whatever becomes of the append, the ledger is as it was or has the
    record in front. *)
Lemma logWallpaper_disk s w p st l :
  tame s p = true -> disk st = Dir l ->
  disk (snd (logWallpaper s w p st)) = Dir l
  \/ exists file, l = Some file /\ file <> []
       /\ disk (snd (logWallpaper s w p st)) = Dir (Some (recordLine s p ++ file)).
Proof.
  intros Ht Hd. destruct st as [d evs]. cbn [disk] in Hd. subst d.
  unfold logWallpaper, checkFirstLine, start, syscall, bind, emit, panic, ret,
    getDisk, setDisk.
  destruct (fails w (SysStart (B "sed"))); cbn [disk events fst snd];
    [left; reflexivity|].
  rewrite (insertFirst_tame s p l Ht).
  destruct l as [[|c file]|]; destruct s;
    repeat (run_step; cbn [disk events fst snd ledgerOf]);
    solve [left; reflexivity
          | right; exists (c :: file); split; [reflexivity | split; [discriminate | reflexivity]]].
Qed.

(** An append that returns has put the record in front. *)
Lemma logWallpaper_return s w p st file :
  tame s p = true -> disk st = Dir (Some file) -> file <> [] ->
  fst (logWallpaper s w p st) = Return tt ->
  disk (snd (logWallpaper s w p st)) = Dir (Some (recordLine s p ++ file)).
Proof.
  intros Ht Hd Hf. destruct st as [d evs]. cbn [disk] in Hd. subst d.
  unfold logWallpaper, checkFirstLine, start, syscall, bind, emit, panic, ret,
    getDisk, setDisk.
  destruct (fails w (SysStart (B "sed"))); cbn [disk events fst snd];
    [discriminate|].
  rewrite (insertFirst_tame s p _ Ht).
  destruct file as [|c file]; [congruence|].
  destruct s;
    repeat (run_step; cbn [disk events fst snd ledgerOf]);
    intros; try discriminate; reflexivity.
Qed.

Lemma ReadString_line body rest :
  noLF body = true -> ReadString (body ++ LF :: rest) LF = Some (body ++ [LF]).
Proof.
  unfold noLF. induction body as [|c body IH]; intros H.
  - cbn [app ReadString]. rewrite Ascii.eqb_refl. reflexivity.
  - cbn [forallb] in H. apply andb_true_iff in H. destruct H as [Hc H].
    apply negb_true_iff in Hc. cbn [app ReadString]. rewrite Hc, (IH H). reflexivity.
Qed.


(** ** The monad *)

Lemma bind_return {A C} (m : M A) (k : A -> M C) st a st' :
  m st = (Return a, st') -> bind m k st = k a st'.
Proof. unfold bind. intros ->. reflexivity. Qed.

Lemma bind_panic {A C} (m : M A) (k : A -> M C) st e st' :
  m st = (Panic e, st') -> bind m k st = (Panic e, st').
Proof. unfold bind. intros ->. reflexivity. Qed.




Lemma networkCalls_app a b : networkCalls (a ++ b) = networkCalls a ++ networkCalls b.
Proof. apply filter_app. Qed.


(** ** The backfill pass on a site that answers *)


(** ** The start of a run *)

Lemma ensureDir_Dir w l evs :
  ensureDir w {| disk := Dir l; events := evs |}
  = (Return tt, {| disk := Dir l; events := evs |}).
Proof. reflexivity. Qed.

Lemma fetchLastDate_Some w file evs :
  fails w SysOpen = false ->
  fetchLastDate w {| disk := Dir (Some file); events := evs |}
  = (match readLastDate file with
     | None => match file with
               | [] => Panic ErrEOF
               | _ => Panic ErrParse
               end
     | Some lastDate => if time.eqb lastDate (today w) then Exit 0 else Return lastDate
     end, {| disk := Dir (Some file); events := evs |}).
Proof.
  intros Hopen. unfold fetchLastDate, readLastDate, syscall, bind, getDisk, panic, ret, exit.
  cbn [disk ledgerOf]. rewrite Hopen.
  destruct file as [|c file]; [reflexivity|].
  rewrite Read_nonempty by discriminate.
  destruct (time.Parse _); [|reflexivity].
  destruct (time.eqb _ _); reflexivity.
Qed.


(** A ledger dated otherwise gives the baseline of the catch-up. *)
Lemma main_baseline s w file evs D :
  fails w SysOpen = false ->
  readLastDate file = Some D ->
  time.eqb D (today w) = false ->
  main s w {| disk := Dir (Some file); events := evs |}
  = catchUp s w (baseline w D) {| disk := Dir (Some file); events := evs |}.
Proof.
  intros Hopen Hr Hne. unfold main.
  rewrite (bind_return _ _ _ _ _ (ensureDir_Dir w _ _)).
  rewrite (bind_return _ _ _ D {| disk := Dir (Some file); events := evs |});
    [reflexivity|].
  rewrite (fetchLastDate_Some w file evs Hopen), Hr, Hne. reflexivity.
Qed.

Lemma catchUp_listing s w lastDate page st :
  Get w (listingURL s) = Response 200 page -> thumbs page <> [] ->
  catchUp s w lastDate st
  = (urls <- lift (collectUrls s w lastDate (thumbs page) []) ;;
     match s with
     | bingwallpaper_go => processUrls s w urls
     | _ => if (0 <? length urls)%nat then processUrls s w urls else ret tt
     end)
      {| disk := disk st; events := events st ++ [HttpGet (listingURL s)] |}.
Proof.
  intros Hg Hne. unfold catchUp, getResponse.
  unfold bind at 1 2. unfold emit. rewrite Hg. cbn [Nat.eqb ret].
  destruct (thumbs page); [congruence | reflexivity].
Qed.

(** ** Both passes on a site that answers *)






Lemma filter_all {A} (f : A -> bool) l : Forall (fun x => f x = true) l -> filter f l = l.
Proof. induction 1 as [|x l Hx _ IH]; [reflexivity|]. cbn. rewrite Hx, IH. reflexivity. Qed.


(** ** Catch-up on a listing that continues the ledger *)



(** ** The scan as the window of the listing *)

(** C4 as stated fails where the variant passes over future entries: on
    part_000, with the listing of the 16th and the 15th read on the 15th
    against a baseline of the 14th, the leading run after the baseline
    holds both entries and the urls collected only the second. *)
Lemma sorted_prefix_counterexample :
  ~ (forall s w lastDate items,
        descending (map fst items) ->
        collectUrls s w lastDate (map thumbOf items) []
        = inr (map urlOf (prefixAfter lastDate items))).
Proof.
  intros H.
  specialize (H part_000 (site (jan 15) []) (jan 14)
                [(jan 16, photoHref 16); (jan 15, photoHref 15)]).
  assert (Hs : descending (map fst [(jan 16, photoHref 16); (jan 15, photoHref 15)]))
    by (repeat constructor).
  specialize (H Hs). vm_compute in H. discriminate H.
Qed.

(** C4, amended.  For every candidate list and baseline, the urls
    collected are those of the maximal leading run of items dated strictly
    after the baseline, in listing order, less the items dated after today
    where the variant passes over them (part_001 and part_000;
    bingwallpaper.go keeps the whole run).  The scan stops at the first
    item not dated after the baseline: whatever stands behind it, well
    formed or not, changes nothing. *)
Theorem sorted_prefix_window s w lastDate items :
  collectUrls s w lastDate (map thumbOf items) []
  = inr (map urlOf (window s w lastDate items))
  /\ (skipsFuture s = false -> window s w lastDate items = prefixAfter lastDate items)
  /\ (forall stop tail d,
        thumb_date stop = Some d -> time.After d lastDate = false ->
        collectUrls s w lastDate
          (map thumbOf (prefixAfter lastDate items) ++ stop :: tail) []
        = inr (map urlOf (window s w lastDate items))).
Proof.
  split; [apply collectUrls_window | split].
  - intros Hs. unfold window, notFuture. rewrite Hs. cbn [andb negb].
    apply filter_all. apply Forall_forall. reflexivity.
  - intros stop tail d Hd Hstop.
    destruct (prefixAfter_split lastDate items) as (rest & _ & Ha & _).
    apply (collectUrls_cut s w lastDate _ stop tail d Ha Hd Hstop).
Qed.

(** ** Future entries *)

(** Where the variant skips them, an entry dated after today is passed
    over and the scan goes on behind it. *)
Lemma collectUrls_future s w lastDate thumb rest urls d :
  skipsFuture s = true ->
  thumb_date thumb = Some d ->
  time.After d lastDate = true -> time.After d (today w) = true ->
  collectUrls s w lastDate (thumb :: rest) urls = collectUrls s w lastDate rest urls.
Proof.
  intros Hs Hd Ha Hf. cbn [collectUrls]. rewrite Hd, Ha, Hs, Hf. reflexivity.
Qed.

(** bingwallpaper.go has no such test: the entry is collected. *)
Lemma collectUrls_future_kept w lastDate i rest urls :
  time.After (fst i) lastDate = true ->
  collectUrls bingwallpaper_go w lastDate (thumbOf i :: rest) urls
  = collectUrls bingwallpaper_go w lastDate rest (urls ++ [urlOf i]).
Proof. intros Ha. cbn [collectUrls thumbOf thumb_date thumb_href]. rewrite Ha. reflexivity. Qed.

(** C3.  Read on the 15th with the ledger at the 14th, the listing shows
    the 16th, the 15th and the 14th.  part_001 and part_000 pass over the
    16th and record and present the 15th; bingwallpaper.go downloads,
    presents and records the 16th as well. *)
Theorem future_entry_not_skipped :
  collectUrls part_000 (site (jan 15) []) (jan 14) [thumbOn 16; thumbOn 15; thumbOn 14] []
  = inr [baseURL ++ photoHref 15]
  /\ collectUrls part_001 (site (jan 15) []) (jan 14) [thumbOn 16; thumbOn 15; thumbOn 14] []
     = inr [baseURL ++ photoHref 15]
  /\ collectUrls bingwallpaper_go (site (jan 15) []) (jan 14)
       [thumbOn 16; thumbOn 15; thumbOn 14] []
     = inr [baseURL ++ photoHref 16; baseURL ++ photoHref 15]
  /\ ledgerDates
       match disk (snd (run bingwallpaper_go
                          (site (jan 15) [thumbOn 16; thumbOn 15; thumbOn 14])
                          (Dir (Some ledger14)))) with
       | Dir (Some content) => content
       | _ => []
       end
     = [Some (jan 16); Some (jan 15); Some (jan 14); Some (jan 13)]
  /\ sinkCalls (events (snd (run bingwallpaper_go
                               (site (jan 15) [thumbOn 16; thumbOn 15; thumbOn 14])
                               (Dir (Some ledger14)))))
     = [Exec (B "fbsetbg") [B "-f"; B "/home/u/Images/bing-wallpapers/pic16.jpg"];
        Exec (B "zenity") [B "--info"; B "--text"; B "Cats & dogs"]].
Proof. repeat split; vm_compute; reflexivity. Qed.

(** ** The empty window *)

(** With the guard of part_001 and part_000, an empty window ends the run:
    the listing was fetched and nothing else happened. *)
Lemma catchUp_empty s w lastDate page st :
  s <> bingwallpaper_go ->
  Get w (listingURL s) = Response 200 page -> thumbs page <> [] ->
  collectUrls s w lastDate (thumbs page) [] = inr [] ->
  catchUp s w lastDate st
  = (Return tt, {| disk := disk st; events := events st ++ [HttpGet (listingURL s)] |}).
Proof.
  intros Hs Hg Hne Hc. rewrite (catchUp_listing s w lastDate page st Hg Hne), Hc.
  destruct s; [congruence | reflexivity | reflexivity].
Qed.

(** bingwallpaper.go indexes the empty slice. *)
Lemma catchUp_empty_unguarded w lastDate page st :
  Get w baseURL = Response 200 page -> thumbs page <> [] ->
  collectUrls bingwallpaper_go w lastDate (thumbs page) [] = inr [] ->
  catchUp bingwallpaper_go w lastDate st
  = (Panic ErrIndexOutOfRange,
     {| disk := disk st; events := events st ++ [HttpGet baseURL] |}).
Proof.
  intros Hg Hne Hc.
  rewrite (catchUp_listing bingwallpaper_go w lastDate page st Hg Hne), Hc.
  reflexivity.
Qed.

(** C2.  Read on the 15th with the ledger at the 14th, the listing shows
    nothing newer than the 14th.  part_001 and part_000 return with the
    ledger as it was and the listing request as their only event;
    bingwallpaper.go panics on [urls[0]]. *)
Theorem empty_window_panics :
  run part_000 (site (jan 15) [thumbOn 14; thumbOn 13]) (Dir (Some ledger14))
  = (Return tt, {| disk := Dir (Some ledger14); events := [HttpGet startURL] |})
  /\ run part_001 (site (jan 15) [thumbOn 14; thumbOn 13]) (Dir (Some ledger14))
     = (Return tt, {| disk := Dir (Some ledger14); events := [HttpGet baseURL] |})
  /\ run bingwallpaper_go (site (jan 15) [thumbOn 14; thumbOn 13]) (Dir (Some ledger14))
     = (Panic ErrIndexOutOfRange,
        {| disk := Dir (Some ledger14); events := [HttpGet baseURL] |}).
Proof. repeat split; vm_compute; reflexivity. Qed.

(** ** Ledgers too short to hold a date *)

Lemma firstn_short {A} (l : list A) n : (length l <= n)%nat -> firstn n l = l.
Proof. apply firstn_all2. Qed.

(** C10 as stated fails on the empty file: the read reports the end of
    the file instead of returning fewer bytes. *)
Lemma short_ledger_counterexample :
  ~ (forall file, (length file < 8)%nat ->
       exists buf n, Read file 8 = Some (buf, n) /\ (n < 8)%nat /\ time.Parse buf = None).
Proof.
  intros H. destruct (H [] ltac:(simpl; lia)) as (buf & n & Hr & _). discriminate Hr.
Qed.

(** C10, amended.  For every existing ledger file of one to seven bytes
    (the placeholder line feed among them) the read returns those bytes
    without error, the buffer does not parse as a date, and the run
    aborts there: no request is made, the ledger is left as it is, and
    neither [none] nor the yesterday baseline is used.  The empty file
    aborts the run too, at the read, which reports the end of the file. *)
Theorem short_ledger_aborts s w (file : bytes) :
  (length file < 8)%nat ->
  fails w SysOpen = false ->
  (file <> [] ->
     Read file 8 = Some (file ++ repeat NUL (8 - length file), length file)
     /\ time.Parse (file ++ repeat NUL (8 - length file)) = None)
  /\ run s w (Dir (Some file))
     = (Panic (match file with [] => ErrEOF | _ => ErrParse end),
        {| disk := Dir (Some file); events := [] |}).
Proof.
  intros Hlen Hopen.
  assert (Hp : time.Parse (file ++ repeat NUL (8 - length file)) = None)
    by (apply Parse_padded; lia).
  split.
  - intros Hne. rewrite (Read_nonempty file 8 Hne), firstn_short by lia. auto.
  - assert (Hf : fetchLastDate w {| disk := Dir (Some file); events := [] |}
                 = (Panic (match file with [] => ErrEOF | _ => ErrParse end),
                    {| disk := Dir (Some file); events := [] |})).
    { rewrite (fetchLastDate_Some w file [] Hopen).
      unfold readLastDate. destruct file as [|c file]; [reflexivity|].
      rewrite Read_nonempty, firstn_short by (discriminate || lia).
      rewrite Hp. reflexivity. }
    unfold run, main. rewrite (bind_return _ _ _ _ _ (ensureDir_Dir w _ _)).
    exact (bind_panic _ _ _ _ _ Hf).
Qed.

Lemma short_ledger_aborts_witness :
  ([LF] <> [] ->
     Read [LF] 8 = Some ([LF] ++ repeat NUL (8 - length [LF]), length [LF])
     /\ time.Parse ([LF] ++ repeat NUL (8 - length [LF])) = None)
  /\ run part_000 (site (jan 15) [thumbOn 15]) (Dir (Some [LF]))
     = (Panic ErrParse, {| disk := Dir (Some [LF]); events := [] |}).
Proof.
  apply (short_ledger_aborts part_000 (site (jan 15) [thumbOn 15]) [LF]).
  - simpl. lia.
  - reflexivity.
Defined.

(** ** A first run that aborts *)

(** C9.  On the first run the ledger does not exist; the run creates it
    with its placeholder line and then aborts, here because the site is
    out of reach.  The next run, with the site back, does not resume from
    yesterday: it reads the placeholder, fails to parse it and panics
    before any request, in all three variants.  Had the ledger been
    absent still, the same run would have caught up. *)
Theorem first_run_abort_wedges :
  (forall s,
     run s (offline (jan 15)) NoDir
     = (Panic (ErrGet (listingURL s)),
        {| disk := Dir (Some [LF]);
           events := [Mkdir (B "/home/u/Images/bing-wallpapers"); HttpGet (listingURL s)] |}))
  /\ (forall s,
        run s (site (jan 15) [thumbOn 15; thumbOn 14]) (Dir (Some [LF]))
        = (Panic ErrParse, {| disk := Dir (Some [LF]); events := [] |}))
  /\ (forall s,
        fst (run s (site (jan 15) [thumbOn 15; thumbOn 14]) (Dir None)) = Return tt
        /\ ledgerDates
             match disk (snd (run s (site (jan 15) [thumbOn 15; thumbOn 14]) (Dir None))) with
             | Dir (Some content) => content
             | _ => []
             end
           = [Some (jan 15)]).
Proof. repeat split; destruct s; vm_compute; reflexivity. Qed.

(** ** Escaping *)

(** The escaping of part_000 sends two descriptions to one text. *)
Lemma escape_not_injective :
  escape part_000 (B "&") = escape part_000 (B "\x26") /\ B "&" <> B "\x26".
Proof. split; [reflexivity | discriminate]. Qed.

(** The two are handed to the editor as one and the same line, so that
    whatever the editor does the ledger cannot tell them apart. *)
Lemma escape_collision :
  sedLine part_000 ampersandAndEscape = sedLine part_000 twoAmpersands
  /\ loggedText part_000 ampersandAndEscape <> loggedText part_000 twoAmpersands
  /\ hasReserved (loggedText part_000 ampersandAndEscape) = true
  /\ hasReserved (loggedText part_000 twoAmpersands) = true.
Proof. repeat split; try reflexivity. discriminate. Qed.

(** C8 as stated fails on a description that holds, beside an ampersand,
    the four characters the ampersand is escaped to: what is read back
    holds two ampersands. *)
Lemma escaping_counterexample :
  ~ (forall w p file,
       file <> [] ->
       hasReserved (loggedText part_000 p) = true ->
       wellFormed (wp_date p) && plainName (wp_filename p) && noBlank (wp_filename p) = true ->
       fails w (SysStart (B "sed")) = false ->
       roundTrips part_000 w p file).
Proof.
  intros H.
  specialize (H (site (jan 15) []) ampersandAndEscape ledger14).
  unfold roundTrips in H. vm_compute in H.
  assert (H' := H ltac:(discriminate) eq_refl eq_refl eq_refl). discriminate H'.
Qed.

Lemma Format_digits a : wellFormed a = true -> forallb time.isDigit (time.Format a) = true.
Proof. intros Hw. exact (proj2 (Parse_digits _ _ (Parse_Format a Hw))). Qed.

Lemma isDigit_noBlank l : forallb time.isDigit l = true -> noBlank l = true.
Proof.
  unfold noBlank. induction l as [|c l IH]; simpl; [reflexivity|].
  rewrite !andb_true_iff. intros [Hc Hl]. split; [|apply IH; exact Hl].
  destruct (Ascii.eqb_spec c " ") as [->|]; [discriminate Hc | reflexivity].
Qed.

Lemma afterBlank_app a r :
  noBlank a = true -> strings.afterBlank (a ++ " "%char :: r) = Some r.
Proof.
  unfold noBlank. induction a as [|c a IH]; intros H; [reflexivity|].
  cbn [forallb] in H. apply andb_true_iff in H. destruct H as [Hc H].
  apply negb_true_iff in Hc. cbn [app strings.afterBlank]. rewrite Hc. apply IH, H.
Qed.

(** Once the editor is started on a ledger that has a first line, a tame
    record is in front, whatever the check after it does. *)
Lemma logWallpaper_started s w p (file : bytes) evs :
  tame s p = true -> file <> [] -> fails w (SysStart (B "sed")) = false ->
  disk (snd (logWallpaper s w p {| disk := Dir (Some file); events := evs |}))
  = Dir (Some (recordLine s p ++ file)).
Proof.
  intros Ht Hf Hsed.
  unfold logWallpaper, checkFirstLine, start, syscall, bind, emit, panic, ret,
    getDisk, setDisk.
  rewrite Hsed. cbn [disk events fst snd].
  rewrite (insertFirst_tame s p _ Ht).
  destruct file as [|c file]; [congruence|].
  destruct s; repeat (run_step; cbn [disk events fst snd ledgerOf]); reflexivity.
Qed.

(** C8, amended.  For every wallpaper whose text is tame for the variant
    (no backslash and no line feed, and none of the editor's characters
    the variant leaves unescaped: for part_000 the ampersand, the
    apostrophe and the semicolon may all occur) and whose file name holds
    no blank, appending the record and reading back the first raw line
    yields the description as it was.  The escaping is thus undone on
    such text; it is not invertible on all text. *)
Theorem escaping_round_trip s w p (file : bytes) :
  file <> [] ->
  tame s p = true -> noBlank (wp_filename p) = true ->
  fails w (SysStart (B "sed")) = false ->
  roundTrips s w p file.
Proof.
  intros Hf Ht Hb Hsed. unfold roundTrips, readBack.
  rewrite (logWallpaper_started s w p file [] Ht Hf Hsed).
  assert (Hrs : ReadString (recordLine s p ++ file) LF = Some (recordLine s p)).
  { destruct (recordLine_body s p Ht) as (body & Hbody & Hn & _).
    rewrite Hbody.
    replace ((time.Format (wp_date p) ++ body ++ [LF]) ++ file)
      with ((time.Format (wp_date p) ++ body) ++ LF :: file)
      by (rewrite <- !app_assoc; reflexivity).
    rewrite (ReadString_line _ _ Hn), <- app_assoc. reflexivity. }
  rewrite Hrs. cbn [option_map]. f_equal.
  unfold recordLine, strings.SplitN3Last.
  assert (Hw : wellFormed (wp_date p) = true).
  { unfold tame in Ht. rewrite !andb_true_iff in Ht. tauto. }
  change (B " " ++ wp_filename p ++ B " " ++ loggedText s p ++ [LF])
    with (" "%char :: wp_filename p ++ " "%char :: loggedText s p ++ [LF]).
  rewrite (afterBlank_app _ _ (isDigit_noBlank _ (Format_digits _ Hw))).
  rewrite (afterBlank_app _ _ Hb). reflexivity.
Qed.

Lemma escaping_round_trip_witness :
  roundTrips part_000 (site (jan 15) []) (wallpaperOn 15) ledger14.
Proof.
  apply (escaping_round_trip part_000 (site (jan 15) []) (wallpaperOn 15) ledger14).
  - discriminate.
  - reflexivity.
  - reflexivity.
  - reflexivity.
Defined.

Example escaping_round_trip_reserved :
  hasReserved (loggedText part_000 (wallpaperOn 15)) = true.
Proof. reflexivity. Qed.

(** ** What the scan picks *)

Lemma collectUrls_picked s w lastDate ts urls res :
  collectUrls s w lastDate ts urls = inr res ->
  res = urls ++ map urlOf (picked s w lastDate ts).
Proof.
  revert urls. induction ts as [|t ts IH]; intros urls; cbn [collectUrls picked].
  - intros H; injection H as <-. rewrite app_nil_r. reflexivity.
  - destruct (thumb_date t) as [d|]; [|discriminate].
    destruct (negb (time.After d lastDate)).
    + intros H; injection H as <-. rewrite app_nil_r. reflexivity.
    + destruct (skipsFuture s && time.After d (today w)); [apply IH|].
      destruct (thumb_href t) as [h|]; [|discriminate].
      intros H. rewrite (IH _ H). cbn [map]. rewrite <- app_assoc. reflexivity.
Qed.

Lemma thumbOf_eq t d h :
  thumb_date t = Some d -> thumb_href t = Some h -> t = thumbOf (d, h).
Proof. destruct t; cbn. intros -> ->. reflexivity. Qed.

Lemma picked_spec s w lastDate ts :
  Forall (fun i => time.After (fst i) lastDate = true
                   /\ notFuture s w i = true
                   /\ In (thumbOf i) ts)
         (picked s w lastDate ts).
Proof.
  induction ts as [|t ts IH]; cbn [picked]; [constructor|].
  assert (IH' : Forall (fun i => time.After (fst i) lastDate = true
                                 /\ notFuture s w i = true
                                 /\ In (thumbOf i) (t :: ts))
                       (picked s w lastDate ts)).
  { eapply Forall_impl; [|exact IH]. cbn. intros i (H1 & H2 & H3). auto. }
  destruct (thumb_date t) as [d|] eqn:Hd; [|constructor].
  destruct (time.After d lastDate) eqn:Ha; cbn [negb]; [|constructor].
  destruct (skipsFuture s && time.After d (today w)) eqn:Hf; [exact IH'|].
  destruct (thumb_href t) as [h|] eqn:Hh; [|constructor].
  constructor; [|exact IH'].
  cbn [fst]. split; [exact Ha | split].
  - unfold notFuture. cbn [fst]. rewrite Hf. reflexivity.
  - left. apply thumbOf_eq; assumption.
Qed.


Lemma picked_faithful s w lastDate ts :
  Forall (faithfulThumb s w) ts -> Forall (faithfulItem s w) (picked s w lastDate ts).
Proof.
  intros H. eapply Forall_impl; [|apply picked_spec].
  cbn. intros [d h] (_ & _ & Hin).
  rewrite Forall_forall in H. exact (H _ Hin d h eq_refl eq_refl).
Qed.


(** ** What a run does to the ledger

    One item of a faithful site: the ledger is as it was, the step having
    failed, or it has the record of the item in front. *)

Lemma step_grows s w i (mid : Wallpaper -> M unit) (file : bytes) evs :
  faithfulItem s w i ->
  (forall p st, disk (snd (mid p st)) = disk st) ->
  file <> [] ->
  (disk (snd ((p <- downloadWallpaper s w (urlOf i) ;; mid p ;; logWallpaper s w p)
                {| disk := Dir (Some file); events := evs |})) = Dir (Some file)
   /\ fst ((p <- downloadWallpaper s w (urlOf i) ;; mid p ;; logWallpaper s w p)
             {| disk := Dir (Some file); events := evs |}) <> Return tt)
  \/ (exists p,
        wp_date p = fst i /\ tame s p = true
        /\ disk (snd ((p <- downloadWallpaper s w (urlOf i) ;; mid p ;; logWallpaper s w p)
                        {| disk := Dir (Some file); events := evs |}))
           = Dir (Some (recordLine s p ++ file))).
Proof.
  intros [Hd Hp] Hmid Hf.
  unfold bind at 1 3 5. rewrite (download_frame s w (urlOf i) (Some file) evs Hd).
  destruct (fst (resolve s w (urlOf i))) as [p| |] eqn:Hr;
    [| left; split; [reflexivity | discriminate] ..].
  destruct (Hp p eq_refl) as [Hdate Ht].
  unfold bind.
  match goal with |- context [mid p ?st] => pose proof (Hmid p st) as Hm;
    destruct (mid p st) as [o st2] end.
  cbn [snd disk] in Hm.
  destruct o as [[]| |]; [| left; split; [exact Hm | discriminate] ..].
  destruct st2 as [d2 evs2]. cbn [disk] in Hm. subst d2.
  destruct (fst (logWallpaper s w p {| disk := Dir (Some file); events := evs2 |})) as [[]| |] eqn:Hl.
  - right. exists p. split; [exact Hdate | split; [exact Ht|]].
    rewrite (surjective_pairing (logWallpaper s w p _)). cbn [snd].
    apply logWallpaper_return; auto.
  - rewrite (surjective_pairing (logWallpaper s w p _)), Hl. cbn [fst snd].
    destruct (logWallpaper_disk s w p {| disk := Dir (Some file); events := evs2 |}
                (Some file) Ht eq_refl) as [H | (file' & Hf' & _ & H)].
    + left. split; [exact H | discriminate].
    + injection Hf' as <-. right. exists p. auto.
  - rewrite (surjective_pairing (logWallpaper s w p _)), Hl. cbn [fst snd].
    destruct (logWallpaper_disk s w p {| disk := Dir (Some file); events := evs2 |}
                (Some file) Ht eq_refl) as [H | (file' & Hf' & _ & H)].
    + left. split; [exact H | discriminate].
    + injection Hf' as <-. right. exists p. auto.
Qed.

Lemma grown_cons s p ps (file : bytes) :
  grown s (p :: ps) file = grown s ps (recordLine s p ++ file).
Proof.
  unfold grown. cbn [rev]. rewrite map_app, concat_app. cbn [map concat].
  rewrite app_nil_r, <- app_assoc. reflexivity.
Qed.

Lemma grown_nonempty s ps (file : bytes) : file <> [] -> grown s ps file <> [].
Proof.
  unfold grown. intros Hf H. apply app_eq_nil in H. destruct H as [_ H]. auto.
Qed.

Lemma recordLine_nonempty s p (file : bytes) : recordLine s p ++ file <> [].
Proof.
  unfold recordLine. rewrite <- !app_assoc. intros H.
  apply app_eq_nil in H. destruct H as [_ H]. discriminate H.
Qed.

(** A pass over items of a faithful site: the ledger has grown by the
    records of the items it got through, in their order; by all of
    them when the pass returned. *)
Lemma each_grows s (f : bytes -> M unit) (l : list DatedItem) :
  Forall (fun i => forall (file : bytes) evs, file <> [] ->
            (disk (snd (f (urlOf i) {| disk := Dir (Some file); events := evs |}))
             = Dir (Some file)
             /\ fst (f (urlOf i) {| disk := Dir (Some file); events := evs |}) <> Return tt)
            \/ (exists p,
                  wp_date p = fst i /\ tame s p = true
                  /\ disk (snd (f (urlOf i) {| disk := Dir (Some file); events := evs |}))
                     = Dir (Some (recordLine s p ++ file)))) l ->
  forall (file : bytes) evs, file <> [] ->
  exists ps,
    disk (snd (each f (map urlOf l) {| disk := Dir (Some file); events := evs |}))
    = Dir (Some (grown s ps file))
    /\ Forall (fun p => tame s p = true) ps
    /\ (exists k, map wp_date ps = map fst (firstn k l))
    /\ (fst (each f (map urlOf l) {| disk := Dir (Some file); events := evs |}) = Return tt ->
        map wp_date ps = map fst l).
Proof.
  induction 1 as [|i l Hi _ IH]; intros file evs Hf.
  - exists []. cbn. repeat split; auto. exists 0%nat. reflexivity.
  - cbn [map each]. unfold bind.
    specialize (Hi file evs Hf).
    destruct (f (urlOf i) {| disk := Dir (Some file); events := evs |}) as [o st1].
    cbn [fst snd] in Hi.
    destruct Hi as [[Hd Hne] | (p & Hdate & Ht & Hd)].
    + exists []. destruct o as [[]| |]; [congruence | |]; cbn [fst snd];
        (split; [exact Hd | split; [constructor | split; [exists 0%nat; reflexivity | discriminate]]]).
    + destruct o as [[]| |].
      * destruct st1 as [d1 evs1]. cbn [disk] in Hd. subst d1.
        destruct (IH (recordLine s p ++ file) evs1 (recordLine_nonempty s p file))
          as (ps & Hdisk & Htame & (k & Hk) & Hret).
        exists (p :: ps). rewrite grown_cons. split; [exact Hdisk|].
        split; [constructor; assumption|]. split.
        -- exists (S k). cbn [map firstn]. rewrite Hdate, Hk. reflexivity.
        -- intros Hr. cbn [map]. rewrite Hdate, (Hret Hr). reflexivity.
      * exists [p]. cbn [fst snd]. rewrite grown_cons. split; [exact Hd|].
        split; [repeat constructor; exact Ht|]. split; [|discriminate].
        exists 1%nat. cbn. rewrite Hdate. reflexivity.
      * exists [p]. cbn [fst snd]. rewrite grown_cons. split; [exact Hd|].
        split; [repeat constructor; exact Ht|]. split; [|discriminate].
        exists 1%nat. cbn. rewrite Hdate. reflexivity.
Qed.

Lemma grown_snoc s p ps (file : bytes) :
  grown s (ps ++ [p]) file = recordLine s p ++ grown s ps file.
Proof.
  unfold grown. rewrite rev_app_distr. cbn [rev app map concat].
  rewrite <- app_assoc. reflexivity.
Qed.

Lemma firstn_prefix_app {A} k (l m : list A) :
  exists k', firstn k l = firstn k' (l ++ m).
Proof.
  exists (Nat.min k (length l)). rewrite firstn_app.
  replace (Nat.min k (length l) - length l)%nat with 0%nat by lia.
  cbn [firstn]. rewrite app_nil_r.
  destruct (Nat.le_ge_cases k (length l)).
  - rewrite Nat.min_l by assumption. reflexivity.
  - rewrite Nat.min_r, firstn_all, firstn_all2 by assumption. reflexivity.
Qed.

(** The two passes over the items picked from a faithful site: the ledger
    has grown by the records of a leading part of them, oldest first; by
    all of them, the newest on top, when the passes returned. *)
Lemma processUrls_grows s w (items : list DatedItem) (file : bytes) evs :
  Forall (faithfulItem s w) items -> file <> [] ->
  exists ps,
    disk (snd (processUrls s w (map urlOf items) {| disk := Dir (Some file); events := evs |}))
    = Dir (Some (grown s ps file))
    /\ Forall (fun p => tame s p = true) ps
    /\ (exists k, map wp_date ps = map fst (firstn k (rev items)))
    /\ (fst (processUrls s w (map urlOf items) {| disk := Dir (Some file); events := evs |})
        = Return tt ->
        items <> [] /\ map wp_date ps = map fst (rev items)).
Proof.
  intros Hfa Hf.
  remember (processUrls s w (map urlOf items) {| disk := Dir (Some file); events := evs |})
    as r eqn:Hrun.
  unfold processUrls in Hrun.
  replace (rev (tl (map urlOf items))) with (map urlOf (rev (tl items))) in Hrun
    by (rewrite map_rev; destruct items; reflexivity).
  assert (Hsteps : Forall (fun i => forall (file : bytes) evs, file <> [] ->
            (disk (snd ((fun url => p <- downloadWallpaper s w url ;; logWallpaper s w p)
                          (urlOf i) {| disk := Dir (Some file); events := evs |}))
             = Dir (Some file)
             /\ fst ((fun url => p <- downloadWallpaper s w url ;; logWallpaper s w p)
                       (urlOf i) {| disk := Dir (Some file); events := evs |}) <> Return tt)
            \/ (exists p,
                  wp_date p = fst i /\ tame s p = true
                  /\ disk (snd ((fun url => p <- downloadWallpaper s w url ;; logWallpaper s w p)
                                  (urlOf i) {| disk := Dir (Some file); events := evs |}))
                     = Dir (Some (recordLine s p ++ file)))) (rev (tl items))).
  { apply Forall_rev. destruct items as [|i0 rest]; [constructor|].
    inversion Hfa as [|? ? _ Hrest]; subst. cbn [tl].
    eapply Forall_impl; [|exact Hrest].
    intros i Hi file' evs' Hf'.
    exact (step_grows s w i (fun _ => ret tt) file' evs' Hi (fun _ _ => eq_refl) Hf'). }
  destruct (each_grows s _ _ Hsteps file evs Hf) as (ps1 & Hd1 & Ht1 & (k1 & Hk1) & Hr1).
  unfold bind at 1 in Hrun.
  destruct (each _ (map urlOf (rev (tl items))) _) as [o st1].
  cbn [fst snd] in Hd1, Hr1.
  destruct items as [|i0 rest].
  - exists ps1. cbn [map] in Hrun. unfold panic in Hrun.
    destruct o as [[]| |]; subst r; cbn [fst snd];
      (split; [exact Hd1 | split; [exact Ht1 | split; [exists k1; exact Hk1 | discriminate]]]).
  - cbn [tl] in *. cbn [map rev] in *.
    destruct (firstn_prefix_app k1 (rev rest) [i0]) as (k1' & Hk1').
    destruct o as [[]| |];
      [| exists ps1; subst r; cbn [fst snd];
         (split; [exact Hd1 | split; [exact Ht1 | split;
            [exists k1'; rewrite <- Hk1'; exact Hk1 | discriminate]]]) ..].
    destruct st1 as [d1 evs1]. cbn [disk] in Hd1. subst d1.
    inversion Hfa as [|? ? Hi0 _]; subst.
    destruct (step_grows s w i0 (setWallpaper s w) (grown s ps1 file) evs1 Hi0
                (setWallpaper_disk s w) (grown_nonempty s ps1 file Hf))
      as [[Hd Hne] | (p & Hdate & Ht & Hd)].
    + exists ps1. split; [exact Hd | split; [exact Ht1 | split]].
      * exists k1'. rewrite <- Hk1'. exact Hk1.
      * intros Hr. contradiction.
    + exists (ps1 ++ [p]). rewrite grown_snoc. split; [exact Hd|].
      split; [apply Forall_app; split; [exact Ht1 | repeat constructor; exact Ht]|].
      assert (Hall : map wp_date (ps1 ++ [p]) = map fst (rev rest ++ [i0])).
      { rewrite !map_app, (Hr1 eq_refl). cbn [map]. rewrite Hdate. reflexivity. }
      split; [|intros _; split; [discriminate | exact Hall]].
      exists (length (rev rest ++ [i0])). rewrite firstn_all. exact Hall.
Qed.

Lemma listing_Response s w code page :
  Get w (listingURL s) = Response code page -> listing s w = thumbs page.
Proof. unfold listing. intros ->. reflexivity. Qed.

Lemma map_urlOf_nil (l : list DatedItem) : map urlOf l = [] -> l = [].
Proof. destruct l; [reflexivity | discriminate]. Qed.

(** The catch-up against a faithful site: the ledger has grown by the
    records of a leading part of the items picked, oldest first; by all
    of them when the run returned. *)
Lemma catchUp_grows s w lastDate (file : bytes) evs :
  faithful s w -> file <> [] ->
  exists ps,
    disk (snd (catchUp s w lastDate {| disk := Dir (Some file); events := evs |}))
    = Dir (Some (grown s ps file))
    /\ Forall (fun p => tame s p = true) ps
    /\ (exists k, map wp_date ps
                  = map fst (firstn k (rev (picked s w lastDate (listing s w)))))
    /\ (fst (catchUp s w lastDate {| disk := Dir (Some file); events := evs |}) = Return tt ->
        map wp_date ps = map fst (rev (picked s w lastDate (listing s w)))).
Proof.
  intros Hfa Hf.
  assert (Hstop : forall r : Outcome unit * State,
            disk (snd r) = Dir (Some file) -> fst r <> Return tt ->
            exists ps,
              disk (snd r) = Dir (Some (grown s ps file))
              /\ Forall (fun p => tame s p = true) ps
              /\ (exists k, map wp_date ps
                            = map fst (firstn k (rev (picked s w lastDate (listing s w)))))
              /\ (fst r = Return tt ->
                  map wp_date ps = map fst (rev (picked s w lastDate (listing s w))))).
  { intros r Hd Hne. exists []. split; [exact Hd|]. split; [constructor|].
    split; [exists 0%nat; reflexivity | contradiction]. }
  remember (catchUp s w lastDate {| disk := Dir (Some file); events := evs |}) as r eqn:Hrun.
  unfold catchUp, getResponse in Hrun. unfold bind at 1 2 in Hrun. unfold emit in Hrun.
  cbn [disk events] in Hrun.
  destruct (Get w (listingURL s)) as [|code page] eqn:Hg;
    [subst r; apply Hstop; [reflexivity | discriminate]|].
  destruct (code =? 200)%nat;
    [|subst r; apply Hstop; [reflexivity | discriminate]].
  cbn [ret] in Hrun.
  destruct (length (thumbs page) =? 0)%nat;
    [subst r; apply Hstop; [reflexivity | discriminate]|].
  unfold bind at 1 in Hrun.
  rewrite (listing_Response s w code page Hg) in Hstop |- *.
  destruct (collectUrls s w lastDate (thumbs page) []) as [e|urls] eqn:Hc;
    [subst r; apply Hstop; [reflexivity | discriminate]|].
  apply collectUrls_picked in Hc. cbn [app] in Hc. subst urls.
  cbn [lift ret] in Hrun.
  assert (Hpf : Forall (faithfulItem s w) (picked s w lastDate (thumbs page))).
  { apply picked_faithful. rewrite <- (listing_Response s w code page Hg). exact Hfa. }
  destruct (processUrls_grows s w (picked s w lastDate (thumbs page)) file
              (evs ++ [HttpGet (listingURL s)]) Hpf Hf)
    as (ps & Hd & Ht & Hk & Hr).
  assert (Hdone : r = processUrls s w (map urlOf (picked s w lastDate (thumbs page)))
                        {| disk := Dir (Some file); events := evs ++ [HttpGet (listingURL s)] |} ->
                  exists ps,
                    disk (snd r) = Dir (Some (grown s ps file))
                    /\ Forall (fun p => tame s p = true) ps
                    /\ (exists k, map wp_date ps
                          = map fst (firstn k (rev (picked s w lastDate (thumbs page)))))
                    /\ (fst r = Return tt ->
                        map wp_date ps = map fst (rev (picked s w lastDate (thumbs page))))).
  { intros ->. exists ps. split; [exact Hd | split; [exact Ht | split; [exact Hk|]]].
    intros H. exact (proj2 (Hr H)). }
  destruct s; [exact (Hdone Hrun) | |];
    (destruct (picked _ w lastDate (thumbs page)) as [|i0 rest];
     [| cbn [map length Nat.ltb Nat.leb] in Hrun; exact (Hdone Hrun)]);
    cbn [map length Nat.ltb Nat.leb ret] in Hrun; subst r; exists []; cbn [fst snd disk];
    (split; [reflexivity | split; [constructor | split; [exists 0%nat; reflexivity | reflexivity]]]).
Qed.

Lemma fetchLastDate_None w evs :
  fetchLastDate w {| disk := Dir None; events := evs |}
  = if fails w (SysCreate (wpFile w))
    then (Panic (ErrSyscall (SysCreate (wpFile w))), {| disk := Dir None; events := evs |})
    else if fails w SysWriteString
    then (Panic (ErrSyscall SysWriteString), {| disk := Dir (Some []); events := evs |})
    else (Return time.zero, {| disk := Dir (Some [LF]); events := evs |}).
Proof.
  unfold fetchLastDate, syscall, bind, getDisk, setDisk, panic, ret. cbn [disk ledgerOf].
  destruct (fails w (SysCreate (wpFile w))); [reflexivity|]. cbn [events].
  destruct (fails w SysWriteString); reflexivity.
Qed.

Lemma fetchLastDate_closed w (file : bytes) evs :
  fails w SysOpen = true ->
  fetchLastDate w {| disk := Dir (Some file); events := evs |}
  = (Panic (ErrSyscall SysOpen), {| disk := Dir (Some file); events := evs |}).
Proof.
  intros H. unfold fetchLastDate, syscall, bind, getDisk, panic. cbn [disk ledgerOf].
  rewrite H. reflexivity.
Qed.

Lemma quiet_nil : quiet [].
Proof. repeat split. Qed.

Lemma quiet_Mkdir path : quiet [Mkdir path].
Proof. repeat split. Qed.

(** A whole run against a faithful site.  Either it stopped before the
    catch-up, having made no request: the disk is as it was, or the
    ledger, absent before, is still absent or was created empty.  Or the
    catch-up started from a ledger [file0] with a baseline [b], the
    ledger found with the date it records, or the placeholder just
    written with yesterday, and the ledger has grown from [file0]. *)
Lemma run_grows s w d :
  faithful s w ->
  (fst (run s w d) <> Return tt
   /\ quiet (events (snd (run s w d)))
   /\ (disk (snd (run s w d)) = d
       \/ ((exists e, fst (run s w d) = Panic e) /\ ledgerOf d = None
           /\ (disk (snd (run s w d)) = Dir None
               \/ disk (snd (run s w d)) = Dir (Some [])))))
  \/ (exists (file0 : bytes) b ps,
        ((d = Dir (Some file0)
          /\ exists D, readLastDate file0 = Some D
                       /\ time.eqb D (today w) = false /\ b = baseline w D)
         \/ (ledgerOf d = None /\ file0 = [LF] /\ b = yesterday w))
        /\ disk (snd (run s w d)) = Dir (Some (grown s ps file0))
        /\ Forall (fun p => tame s p = true) ps
        /\ (exists k, map wp_date ps
                      = map fst (firstn k (rev (picked s w b (listing s w)))))
        /\ (fst (run s w d) = Return tt ->
            map wp_date ps = map fst (rev (picked s w b (listing s w))))).
Proof.
  intros Hfa.
  assert (Hfresh : forall evs r,
            quiet evs -> ledgerOf d = None ->
            r = (lastDate <- fetchLastDate w ;; catchUp s w (baseline w lastDate))
                  {| disk := Dir None; events := evs |} ->
            (fst r <> Return tt /\ quiet (events (snd r))
             /\ (disk (snd r) = d
                 \/ ((exists e, fst r = Panic e) /\ ledgerOf d = None
                     /\ (disk (snd r) = Dir None \/ disk (snd r) = Dir (Some [])))))
            \/ (exists (file0 : bytes) b ps,
                  ((d = Dir (Some file0)
                    /\ exists D, readLastDate file0 = Some D
                                 /\ time.eqb D (today w) = false /\ b = baseline w D)
                   \/ (ledgerOf d = None /\ file0 = [LF] /\ b = yesterday w))
                  /\ disk (snd r) = Dir (Some (grown s ps file0))
                  /\ Forall (fun p => tame s p = true) ps
                  /\ (exists k, map wp_date ps
                                = map fst (firstn k (rev (picked s w b (listing s w)))))
                  /\ (fst r = Return tt ->
                      map wp_date ps = map fst (rev (picked s w b (listing s w)))))).
  { intros evs r Hq Hl Hrun. unfold bind in Hrun. rewrite fetchLastDate_None in Hrun.
    destruct (fails w (SysCreate (wpFile w)));
      [subst r; left; cbn [fst snd disk events];
       split; [discriminate | split; [exact Hq | right; eauto]]|].
    destruct (fails w SysWriteString);
      [subst r; left; cbn [fst snd disk events];
       split; [discriminate | split; [exact Hq | right; eauto]]|].
    right. exists [LF], (yesterday w).
    destruct (catchUp_grows s w (yesterday w) [LF] evs Hfa ltac:(discriminate))
      as (ps & H1 & H2 & H3 & H4).
    exists ps. subst r. split; [right; auto|]. auto. }
  remember (run s w d) as r eqn:Hrun. unfold run, main in Hrun.
  destruct d as [|[file|]].
  - unfold ensureDir in Hrun. unfold bind at 1 2 3 in Hrun.
    unfold getDisk, syscall, emit, setDisk in Hrun. cbn [disk events] in Hrun.
    destruct (fails w SysMkdir).
    + subst r. left. cbn [fst snd disk events].
      split; [discriminate | split; [apply quiet_nil | left; reflexivity]].
    + cbn [ret disk events app] in Hrun.
      apply (Hfresh [Mkdir (imgDir w)] r (quiet_Mkdir _) eq_refl). exact Hrun.
  - rewrite (bind_return _ _ _ _ _ (ensureDir_Dir w _ _)) in Hrun.
    destruct (fails w SysOpen) eqn:Hopen.
    + rewrite (bind_panic _ _ _ _ _ (fetchLastDate_closed w file [] Hopen)) in Hrun.
      subst r. left. cbn [fst snd disk events].
      split; [discriminate | split; [apply quiet_nil | left; reflexivity]].
    + unfold bind in Hrun. rewrite (fetchLastDate_Some w file [] Hopen) in Hrun.
      destruct (readLastDate file) as [D|] eqn:HD.
      * destruct (time.eqb D (today w)) eqn:HT.
        -- subst r. left. cbn [fst snd disk events].
           split; [discriminate | split; [apply quiet_nil | left; reflexivity]].
        -- right. exists file, (baseline w D).
           assert (Hf : file <> []) by (intros ->; discriminate HD).
           destruct (catchUp_grows s w (baseline w D) file [] Hfa Hf)
             as (ps & H1 & H2 & H3 & H4).
           exists ps. subst r. split; [left; split; [reflexivity | exists D; auto]|]. auto.
      * subst r. left.
        destruct file; cbn [fst snd disk events];
          (split; [discriminate | split; [apply quiet_nil | left; reflexivity]]).
  - rewrite (bind_return _ _ _ _ _ (ensureDir_Dir w _ _)) in Hrun.
    apply (Hfresh [] r quiet_nil eq_refl). exact Hrun.
Qed.

(** ** The order of the ledger *)



Lemma In_firstn {A} n (l : list A) x : In x (firstn n l) -> In x l.
Proof.
  revert l. induction n as [|n IH]; intros l H; [contradiction|].
  destruct l as [|y l]; [contradiction|].
  destruct H as [->|H]; [left; reflexivity | right; apply IH, H].
Qed.





Lemma map_Some_inj {A} (l m : list A) : map Some l = map Some m -> l = m.
Proof.
  revert m. induction l as [|x l IH]; intros [|y m] H; try discriminate; [reflexivity|].
  cbn in H. injection H as -> H. f_equal. apply IH, H.
Qed.








(** ** The ledger stays sorted *)




(** ** No date twice *)


(** ** Only the fast path exits *)












(** ** Running twice *)


(** ** The site of the examples is as assumed *)










Example ordering_preserved_run :
  ledgerDates
    match disk (snd (run part_000 (site (jan 15) [thumbOn 15; thumbOn 14; thumbOn 13])
                       (Dir (Some ledger13)))) with
    | Dir (Some content) => content
    | _ => []
    end
  = [Some (jan 15); Some (jan 14); Some (jan 13)].
Proof. vm_compute. reflexivity. Qed.


Example no_duplicate_dates_runs :
  ledgerDates
    match runs part_000 [site (jan 15) [thumbOn 15; thumbOn 14; thumbOn 13];
                         site (jan 16) [thumbOn 16; thumbOn 15; thumbOn 14]] NoDir with
    | Dir (Some content) => content
    | _ => []
    end
  = [Some (jan 16); Some (jan 15)].
Proof. vm_compute. reflexivity. Qed.


Example idempotent_twice :
  fst (run part_000 (site (jan 15) [thumbOn 15; thumbOn 14; thumbOn 13]) (Dir (Some ledger13)))
  = Return tt
  /\ run part_000 (site (jan 15) [thumbOn 15; thumbOn 14; thumbOn 13])
       (disk (snd (run part_000 (site (jan 15) [thumbOn 15; thumbOn 14; thumbOn 13])
                     (Dir (Some ledger13)))))
     = (Exit 0,
        {| disk := disk (snd (run part_000 (site (jan 15) [thumbOn 15; thumbOn 14; thumbOn 13])
                                (Dir (Some ledger13))));
           events := [] |}).
Proof. split; vm_compute; reflexivity. Qed.

(** ** Runs that abort *)

(** On a ledger that records a date and a site faithful to its listing, a
    run that aborts leaves a ledger that records a date still: the one it
    had, or that of the last record appended before the abort. *)
Lemma aborted_run_keeps_baseline s w (file : bytes) D e :
  faithful s w ->
  readLastDate file = Some D ->
  fst (run s w (Dir (Some file))) = Panic e ->
  exists content D',
    disk (snd (run s w (Dir (Some file)))) = Dir (Some content)
    /\ readLastDate content = Some D'
    /\ (D' = D \/ time.After D' (baseline w D) = true).
Proof.
  intros Hfa HD Hp.
  destruct (run_grows s w (Dir (Some file)) Hfa)
    as [(_ & _ & [Hd | (_ & Hl & _)])
       | (file0 & b & ps & Hstart & Hd & Ht & (k & Hk) & _)].
  - exists file, D. auto.
  - discriminate Hl.
  - destruct Hstart as [(Heq & D0 & HD0 & _ & ->) | (Hl & _)]; [|discriminate Hl].
    injection Heq as <-. rewrite HD in HD0. injection HD0 as <-.
    destruct (rev ps) as [|p rps] eqn:Hrev.
    + apply (f_equal (@rev Wallpaper)) in Hrev. rewrite rev_involutive in Hrev. subst ps.
      exists file, D. auto.
    + apply (f_equal (@rev Wallpaper)) in Hrev. rewrite rev_involutive in Hrev.
      cbn [rev] in Hrev. subst ps. rewrite grown_snoc in Hd.
      apply Forall_app in Ht. destruct Ht as [_ Ht]. inversion Ht as [|? ? Ht0 _]; subst.
      exists (recordLine s p ++ grown s (rev rps) file), (wp_date p).
      split; [exact Hd | split; [apply readLastDate_record, Ht0 | right]].
      assert (Hin : In (wp_date p) (map wp_date (rev rps ++ [p])))
        by (rewrite map_app; apply in_or_app; right; left; reflexivity).
      rewrite Hk in Hin. apply in_map_iff in Hin. destruct Hin as (i & <- & Hi).
      apply In_firstn in Hi. apply in_rev in Hi.
      pose proof (picked_spec s w (baseline w D) (listing s w)) as Hspec.
      rewrite Forall_forall in Hspec. exact (proj1 (Hspec i Hi)).
Qed.

(** ** The empty window, in general *)

Lemma empty_window_returns s w (file : bytes) D page :
  s <> bingwallpaper_go ->
  fails w SysOpen = false ->
  readLastDate file = Some D -> time.eqb D (today w) = false ->
  Get w (listingURL s) = Response 200 page -> thumbs page <> [] ->
  collectUrls s w (baseline w D) (thumbs page) [] = inr [] ->
  run s w (Dir (Some file))
  = (Return tt, {| disk := Dir (Some file); events := [HttpGet (listingURL s)] |}).
Proof.
  intros Hs Hopen HD HT Hg Hne Hc. unfold run.
  rewrite (main_baseline s w file [] D Hopen HD HT).
  exact (catchUp_empty s w (baseline w D) page _ Hs Hg Hne Hc).
Qed.

Lemma empty_window_unguarded w (file : bytes) D page :
  fails w SysOpen = false ->
  readLastDate file = Some D -> time.eqb D (today w) = false ->
  Get w baseURL = Response 200 page -> thumbs page <> [] ->
  collectUrls bingwallpaper_go w (baseline w D) (thumbs page) [] = inr [] ->
  run bingwallpaper_go w (Dir (Some file))
  = (Panic ErrIndexOutOfRange, {| disk := Dir (Some file); events := [HttpGet baseURL] |}).
Proof.
  intros Hopen HD HT Hg Hne Hc. unfold run.
  rewrite (main_baseline bingwallpaper_go w file [] D Hopen HD HT).
  exact (catchUp_empty_unguarded w (baseline w D) page _ Hg Hne Hc).
Qed.
